(** * DJD Agent Score MCP: the HTTP client wrapper (src/src/client.ts)

    A shallow embedding of the configuration store ([setConfig],
    [getConfig]) and of the request helper [apiRequest] with its error
    class [ApiError], followed by the properties of the specification
    that concern them.

    JavaScript objects live in a store and are handled through
    references, so that copies and aliases can be told apart.  The
    platform (WHATWG URL, JSON, ToBoolean) is an interface the helper is
    parametric in; the network, the timer and the other tasks of the
    event loop are a script the helper runs against. *)

From stdpp Require Import base option list strings pretty.

Open Scope Z_scope.

(** ** Strings *)

(** [String.prototype.includes]: [includes needle hay] is
    [hay.includes(needle)]. *)
Fixpoint includes (needle hay : string) : bool :=
  String.prefix needle hay ||
  match hay with
  | EmptyString => false
  | String _ rest => includes needle rest
  end.

(** The propositional reading of "the text contains the fragment". *)
Definition contains (needle hay : string) : Prop :=
  exists pre post, hay = pre +:+ needle +:+ post.

(** Template literals print an integer-valued number in decimal (up
    to 21 digits; the statuses and timeouts printed here are far
    below). *)
Definition show (n : Z) : string := pretty n.

(** ** Configuration store (client.ts:11-24) *)

(** [interface ServerConfig] of types.ts. *)
Record ServerConfig := mkConfig {
  baseUrl : string;
  timeoutMs : Z;
}.

(** [Partial<ServerConfig>]: [None] is a field the object does not
    have.  A field that is there holds a value of the field's type. *)
Record PartialConfig := mkPartial {
  p_baseUrl : option string;
  p_timeoutMs : option Z;
}.

(** [process.env.DJD_BASE_URL || "https://djd-agent-score.fly.dev"]: an
    unset variable and the empty string are both falsy. *)
Definition env_or (v : option string) (fallback : string) : string :=
  match v with
  | Some s => if String.eqb s EmptyString then fallback else s
  | None => fallback
  end.

Definition DEFAULT_CONFIG (DJD_BASE_URL : option string) : ServerConfig :=
  {| baseUrl := env_or DJD_BASE_URL "https://djd-agent-score.fly.dev";
     timeoutMs := 10000 |}.

(** Object spread [{ ...c, ...overrides }]: the later source wins on the
    fields it has. *)
Definition spread (c : ServerConfig) (overrides : PartialConfig) : ServerConfig :=
  {| baseUrl := default (baseUrl c) (p_baseUrl overrides);
     timeoutMs := default (timeoutMs c) (p_timeoutMs overrides) |}.

(** Platform calls the module issues, in the order it issues them. *)
Inductive Method := GET | POST.

Record RequestInit := mkInit {
  init_method : Method;
  init_headers : list (string * string);
  init_body : option string;      (* [None] is [undefined]: no body *)
  init_signal : nat;              (* the controller the timer aborts *)
}.

Inductive Event :=
| EvSetTimeout (handle : nat) (delay : Z)
| EvFetch (url : string) (init : RequestInit)
| EvText
| EvJson
| EvClearTimeout (handle : nat).

(** The state the module lives in.  [heap] holds the configuration
    objects ever allocated, a reference being an index into it; [config]
    is the module-level variable [let config].  [timers] are the handles
    of the timers that are pending. *)
Record World := mkWorld {
  heap : list ServerConfig;
  config : nat;
  timers : list nat;
  next_timer : nat;
  log : list Event;
}.

Definition fallback_object : ServerConfig := DEFAULT_CONFIG None.

(** Reading an object through a reference. *)
Definition deref (w : World) (r : nat) : ServerConfig :=
  default fallback_object (heap w !! r).

(** The object the variable [config] is bound to. *)
Definition current (w : World) : ServerConfig := deref w (config w).

(** Allocation of a fresh object. *)
Definition alloc (c : ServerConfig) (w : World) : nat * World :=
  (length (heap w),
   {| heap := heap w ++ [c]; config := config w; timers := timers w;
      next_timer := next_timer w; log := log w |}).

(** Module initialisation: [DEFAULT_CONFIG] is object 0 and
    [let config = { ...DEFAULT_CONFIG }] is object 1. *)
Definition init (DJD_BASE_URL : option string) : World :=
  {| heap := [DEFAULT_CONFIG DJD_BASE_URL; DEFAULT_CONFIG DJD_BASE_URL];
     config := 1%nat; timers := []; next_timer := 0%nat; log := [] |}.

(** [config = { ...config, ...overrides }]: a new object is built and
    the variable is bound to it; the old object is left as it was. *)
Definition setConfig (overrides : PartialConfig) (w : World) : World :=
  let (r, w') := alloc (spread (current w) overrides) w in
  {| heap := heap w'; config := r; timers := timers w';
     next_timer := next_timer w'; log := log w' |}.

(** [return { ...config }]: a reference to a fresh copy. *)
Definition getConfig (w : World) : nat * World :=
  alloc (current w) w.

(** What a caller can do to an object it holds a reference to. *)
Inductive Mutation :=
| SetBaseUrl (v : string)
| SetTimeoutMs (v : Z).

Definition assign (m : Mutation) (c : ServerConfig) : ServerConfig :=
  match m with
  | SetBaseUrl v => {| baseUrl := v; timeoutMs := timeoutMs c |}
  | SetTimeoutMs v => {| baseUrl := baseUrl c; timeoutMs := v |}
  end.

Definition mutate (r : nat) (m : Mutation) (w : World) : World :=
  {| heap := alter (assign m) r (heap w); config := config w;
     timers := timers w; next_timer := next_timer w; log := log w |}.

Definition mutate_all (r : nat) (ms : list Mutation) (w : World) : World :=
  foldl (fun w m => mutate r m w) w ms.

(** The variable [config] refers to an allocated object. *)
Definition config_bound (w : World) : Prop :=
  (config w < length (heap w))%nat.

(** ** Exceptions and the error class (client.ts:105-120) *)

(** A value thrown by the platform.  [DOMException] and [Error] carry
    their [name] and [message]; [NotAnError] is a thrown value that is
    no [Error] instance, given by what [String(value)] renders. *)
Inductive Thrown :=
| DOMException (name message : string)
| Error (name message : string)
| NotAnError (rendering : string).

(** [error instanceof DOMException && error.name === "AbortError"]. *)
Definition isAbort (e : Thrown) : bool :=
  match e with
  | DOMException name _ => String.eqb name "AbortError"
  | _ => false
  end.

(** [error instanceof Error ? error.message : String(error)]; a
    [DOMException] is an [Error] instance. *)
Definition describe (e : Thrown) : string :=
  match e with
  | DOMException _ message => message
  | Error _ message => message
  | NotAnError rendering => rendering
  end.

(** [class ApiError extends Error]; its [name] is always "ApiError". *)
Record ApiError := new_ApiError {
  message : string;
  statusCode : Z;
}.

(** The taxonomy of failures.  The class itself carries no tag: a kind
    names the [throw] statement of [apiRequest] that built the error
    (client.ts:62, 72, 88 and 94, in this order). *)
Inductive ErrorKind := PaymentRequired | HttpError | Timeout | NetworkError.

Inductive Completion (A : Type) :=
| Normal (a : A)
| Throw (e : Thrown).
Arguments Normal {A} a.
Arguments Throw {A} e.

(** ** The platform *)

(** What [apiRequest] uses of the JavaScript runtime.  [Value] is the
    type of JavaScript values ([unknown]); [JSON_stringify] may throw
    and may answer [undefined] ([None]); [JSON_parse] answers the
    message of its [SyntaxError] or the value; [URL_new input base] is
    [new URL(input, base)], which throws a [TypeError] on what does not
    parse. *)
Class Platform := {
  Value : Type;
  ToBoolean : Value -> bool;
  of_string : string -> Value;
  JSON_stringify : Value -> Completion (option string);
  JSON_parse : string -> string + Value;
  URL : Type;
  URL_new : string -> string -> Completion URL;
  searchParams_set : string -> string -> URL -> URL;
  URL_toString : URL -> string;
}.

(** ** The network, the timer and the other tasks *)

(** How an awaited promise settles while the call's timer is pending:
    the timer fires first and aborts it, or it rejects, or it resolves. *)
Inductive Settled (A : Type) :=
| TimerFires
| Rejects (e : Thrown)
| Resolves (a : A).
Arguments TimerFires {A}.
Arguments Rejects {A} e.
Arguments Resolves {A} a.

(** A response as [apiRequest] observes it: the status line, what
    [headers.get("content-type")] answers ([None] is [null]) and how
    reading the body goes; [meanwhile_body] are the [setConfig] calls
    other tasks make while the body is awaited. *)
Record Response := mkResponse {
  status : Z;
  content_type : option string;
  meanwhile_body : list PartialConfig;
  body_result : Settled string;
}.

(** One run of the environment: the [setConfig] calls other tasks make
    while [fetch] is awaited, and how [fetch] settles. *)
Record Script := mkScript {
  meanwhile_fetch : list PartialConfig;
  fetch_result : Settled Response;
}.

(** The rejection reason of an aborted [fetch]. *)
Definition abort_error : Thrown :=
  DOMException "AbortError" "This operation was aborted".

Definition record_event (ev : Event) (w : World) : World :=
  {| heap := heap w; config := config w; timers := timers w;
     next_timer := next_timer w; log := log w ++ [ev] |}.

Definition drop_timer (t : nat) (w : World) : World :=
  {| heap := heap w; config := config w;
     timers := filter (fun x => x <> t) (timers w);
     next_timer := next_timer w; log := log w |}.

(** [setTimeout(callback, delay)]: a fresh handle, now pending. *)
Definition setTimeout (delay : Z) (w : World) : nat * World :=
  let t := next_timer w in
  (t, {| heap := heap w; config := config w; timers := t :: timers w;
         next_timer := S t; log := log w ++ [EvSetTimeout t delay] |}).

(** [clearTimeout(timer)]: the handle is pending no more; clearing a
    timer that has fired changes nothing. *)
Definition clearTimeout (t : nat) (w : World) : World :=
  record_event (EvClearTimeout t) (drop_timer t w).

(** The other tasks run while the call is suspended. *)
Definition interleave (calls : list PartialConfig) (w : World) : World :=
  foldl (fun w o => setConfig o w) w calls.

(** [await promise] under the call's timer [t]. *)
Definition await {A : Type} (t : nat) (calls : list PartialConfig)
    (s : Settled A) (w : World) : (Thrown + A) * World :=
  let w' := interleave calls w in
  match s with
  | TimerFires => (inl abort_error, drop_timer t w')
  | Rejects e => (inl e, w')
  | Resolves a => (inr a, w')
  end.

(** ** The request helper (client.ts:28-101) *)

Record RequestOptions {P : Platform} := mkOptions {
  method : option Method;
  path : string;
  params : option (list (string * string));   (* [Object.entries] order *)
  body : option Value;                        (* [None] is [undefined] *)
}.
Arguments RequestOptions P : clear implicits.

(** How the promise [apiRequest] returns settles: resolved with a
    payload, rejected with an [ApiError] of some kind, or rejected with
    an exception that was never classified. *)
Inductive Outcome {P : Platform} :=
| Success (payload : Value)
| Failure (kind : ErrorKind) (error : ApiError)
| Uncaught (e : Thrown).
Arguments Outcome P : clear implicits.

(** What is thrown inside the [try] block: an [ApiError] of the helper's
    own, or a value thrown by the platform. *)
Inductive Raised :=
| Own (kind : ErrorKind) (error : ApiError)
| Foreign (e : Thrown).

(** [formatError] (client.ts:115-120), on what a caller has caught. *)
Definition formatError (caught : Raised) : string :=
  match caught with
  | Own _ error => message error
  | Foreign e => "Unexpected error: " +:+ describe e
  end.

(** [response.ok]. *)
Definition ok (status : Z) : bool := (200 <=? status) && (status <=? 299).

Definition request_headers : list (string * string) :=
  [("Content-Type", "application/json"); ("Accept", "application/json")].

Definition payment_required_message (text : string) : string :=
  "Payment required (HTTP 402). This is a paid endpoint that requires x402 payment. "
  +:+ "Your agent framework must handle the 402 response and provide payment. "
  +:+ "Details: " +:+ text.

Definition http_error_message (status : Z) (text : string) : string :=
  "API request failed with status " +:+ show status +:+ ": " +:+ text.

Definition timeout_message (ms : Z) : string :=
  "Request timed out after " +:+ show ms +:+ "ms. Try again or increase timeout.".

Definition network_error_message (detail : string) : string :=
  "Network error: " +:+ detail.

Section Client.
Context {P : Platform}.

(** [body ? JSON.stringify(body) : undefined]. *)
Definition request_body (body : option Value) : Completion (option string) :=
  match body with
  | Some b => if ToBoolean b then JSON_stringify b else Normal None
  | None => Normal None
  end.

(** [response.text()]: the body as text, once it has been read. *)
Definition response_text (response : Response) : Settled string :=
  body_result response.

(** [response.json()]: the body read and handed to [JSON.parse]. *)
Definition response_json (response : Response) : Settled Value :=
  match body_result response with
  | TimerFires => TimerFires
  | Rejects e => Rejects e
  | Resolves text =>
      match JSON_parse text with
      | inl msg => Rejects (Error "SyntaxError" msg)
      | inr v => Resolves v
      end
  end.

(** The statements of the [try] block after [fetch] has resolved
    (client.ts:59-83). *)
Definition on_response (timer : nat) (response : Response) (w : World)
    : (Raised + Value) * World :=
  let awaiting {A : Type} (promise : Settled A) :=
    await timer (meanwhile_body response) promise in
  if status response =? 402 then
    match awaiting (response_text response) (record_event EvText w) with
    | (inl e, w') => (inl (Foreign e), w')
    | (inr text, w') =>
        (inl (Own PaymentRequired
                (new_ApiError (payment_required_message text) 402)), w')
    end
  else if negb (ok (status response)) then
    match awaiting (response_text response) (record_event EvText w) with
    | (inl e, w') => (inl (Foreign e), w')
    | (inr text, w') =>
        (inl (Own HttpError
                (new_ApiError (http_error_message (status response) text)
                              (status response))), w')
    end
  else
    let contentType := default EmptyString (content_type response) in
    if includes "application/json" contentType then
      match awaiting (response_json response) (record_event EvJson w) with
      | (inl e, w') => (inl (Foreign e), w')
      | (inr v, w') => (inr v, w')
      end
    else
      match awaiting (response_text response) (record_event EvText w) with
      | (inl e, w') => (inl (Foreign e), w')
      | (inr text, w') => (inr (of_string text), w')
      end.

(** The [try] block (client.ts:48-83). *)
Definition try_block (m : Method) (url : URL) (body : option Value)
    (timer : nat) (s : Script) (w : World) : (Raised + Value) * World :=
  match request_body body with
  | Throw e => (inl (Foreign e), w)
  | Normal payload =>
      let init :=
        {| init_method := m; init_headers := request_headers;
           init_body := payload; init_signal := timer |} in
      let w1 := record_event (EvFetch (URL_toString url) init) w in
      match await timer (meanwhile_fetch s) (fetch_result s) w1 with
      | (inl e, w2) => (inl (Foreign e), w2)
      | (inr response, w2) => on_response timer response w2
      end
  end.

(** The [catch] block (client.ts:84-97); [config] is read when the
    handler runs. *)
Definition catch_block (r : Raised) (w : World) : Outcome P :=
  match r with
  | Own kind error => Failure kind error
  | Foreign e =>
      if isAbort e then
        Failure Timeout
          (new_ApiError (timeout_message (timeoutMs (current w))) 0)
      else
        Failure NetworkError
          (new_ApiError (network_error_message (describe e)) 0)
  end.

(** [if (params) for (const [k, v] of Object.entries(params))
    url.searchParams.set(k, v)]. *)
Definition with_params (params : option (list (string * string))) (url : URL)
    : URL :=
  match params with
  | Some entries =>
      foldl (fun u kv => searchParams_set (fst kv) (snd kv) u) url entries
  | None => url
  end.

(** [async function apiRequest<T>(opts)], run to the point where the
    returned promise settles. *)
Definition apiRequest (opts : RequestOptions P) (s : Script) (w : World)
    : Outcome P * World :=
  let m := default GET (method opts) in
  match URL_new (path opts) (baseUrl (current w)) with
  | Throw e => (Uncaught e, w)
  | Normal url0 =>
      let url := with_params (params opts) url0 in
      let (timer, w1) := setTimeout (timeoutMs (current w)) w in
      let (r, w2) := try_block m url (body opts) timer s w1 in
      let outcome :=
        match r with
        | inr v => Success v
        | inl e => catch_block e w2
        end in
      (outcome, clearTimeout timer w2)
  end.

End Client.

(** ** A small runtime to run the helper on *)

(** An instance of [Platform] for concrete runs.  Values are JSON
    values with integer numbers.  The URL and JSON functions are no
    more than what the scenarios below need, and agree with Node on
    these inputs: a path that starts with one slash, resolved against a
    base that is an origin without a trailing slash, or against a base
    with no scheme separator, which makes [new URL] throw; query keys
    and values that need no escaping; strings without characters to
    escape; for [JSON.parse] the documents null, true and false, and
    text that starts no JSON value.  The wording of the [SyntaxError]
    message is the runtime's own and is only stood for here. *)
Module Runtime.

Unset Elimination Schemes.
Inductive JsValue :=
| JNull
| JBool (b : bool)
| JNumber (n : Z)
| JString (s : string)
| JArray (items : list JsValue)
| JObject (fields : list (string * JsValue)).
Set Elimination Schemes.

(** ECMAScript ToBoolean: null, false, 0 and the empty string are
    falsy; every object is truthy. *)
Definition truthy (v : JsValue) : bool :=
  match v with
  | JNull => false
  | JBool b => b
  | JNumber n => negb (n =? 0)
  | JString s => negb (String.eqb s EmptyString)
  | JArray _ => true
  | JObject _ => true
  end.

Definition dquote : string := String (Ascii.ascii_of_nat 34) EmptyString.

Definition quoted (s : string) : string := dquote +:+ s +:+ dquote.

Definition commas (parts : list string) : string :=
  match parts with
  | [] => EmptyString
  | p :: rest => foldl (fun acc q => acc +:+ "," +:+ q) p rest
  end.

Fixpoint stringify (v : JsValue) : string :=
  match v with
  | JNull => "null"
  | JBool true => "true"
  | JBool false => "false"
  | JNumber n => show n
  | JString s => quoted s
  | JArray items => "[" +:+ commas (map stringify items) +:+ "]"
  | JObject fields =>
      "{" +:+ commas (map (fun kv => quoted (fst kv) +:+ ":" +:+ stringify (snd kv))
                          fields) +:+ "}"
  end.

Definition parse (text : string) : string + JsValue :=
  if String.eqb text "null" then inr JNull
  else if String.eqb text "true" then inr (JBool true)
  else if String.eqb text "false" then inr (JBool false)
  else inl ("Unexpected token in JSON: " +:+ text).

Record Url := mkUrl {
  href : string;
  search : list (string * string);
}.

(** A base without a scheme separator does not parse: Node throws
    [TypeError: Invalid URL]. *)
Definition new_URL (input base : string) : Completion Url :=
  if includes "://" base then Normal {| href := base +:+ input; search := [] |}
  else Throw (Error "TypeError" "Invalid URL").

(** [URLSearchParams.set]: the first entry of that name takes the
    value and the later ones go; a new name is appended. *)
Fixpoint set_entry (k v : string) (entries : list (string * string))
    : list (string * string) :=
  match entries with
  | [] => [(k, v)]
  | (k', v') :: rest =>
      if String.eqb k k'
      then (k, v) :: filter (fun kv => fst kv <> k) rest
      else (k', v') :: set_entry k v rest
  end.

Definition set_param (k v : string) (u : Url) : Url :=
  {| href := href u; search := set_entry k v (search u) |}.

Definition to_string (u : Url) : string :=
  match search u with
  | [] => href u
  | kv :: rest =>
      foldl (fun acc kv => acc +:+ "&" +:+ fst kv +:+ "=" +:+ snd kv)
            (href u +:+ "?" +:+ fst kv +:+ "=" +:+ snd kv) rest
  end.

#[export] Instance node : Platform := {|
  Value := JsValue;
  ToBoolean := truthy;
  of_string := JString;
  JSON_stringify := fun v => Normal (Some (stringify v));
  JSON_parse := parse;
  URL := Url;
  URL_new := new_URL;
  searchParams_set := set_param;
  URL_toString := to_string;
|}.

End Runtime.

(** ** Scenarios *)

Module Scenario.
Import Runtime.

(** [setConfig({ baseUrl: "https://api.example", timeoutMs: 50 })] on a
    freshly loaded module. *)
Definition world : World :=
  setConfig {| p_baseUrl := Some "https://api.example"; p_timeoutMs := Some 50 |}
            (init None).

(** The server was started with [DJD_BASE_URL=localhost:3001]: the
    entry point hands the variable to [setConfig] as it is. *)
Definition misconfigured : World :=
  setConfig {| p_baseUrl := Some "localhost:3001"; p_timeoutMs := Some 10000 |}
            (init (Some "localhost:3001")).

(** The call of the tool [score_basic]. *)
Definition score_basic : RequestOptions node :=
  {| method := None; path := "/v1/score/basic";
     params := Some [("wallet", "0xAAAA")]; body := None |}.

(** The call of the tool [health_check]. *)
Definition health_check : RequestOptions node :=
  {| method := None; path := "/health"; params := None; body := None |}.

(** A POST with an object for a body, as the tool [report_fraud] makes. *)
Definition report_fraud : RequestOptions node :=
  {| method := Some POST; path := "/v1/report"; params := None;
     body := Some (JObject [("target", JString "0xBBBB")]) |}.

(** A POST whose body is the JSON value false. *)
Definition post_false : RequestOptions node :=
  {| method := Some POST; path := "/v1/report"; params := None;
     body := Some (JBool false) |}.

(** The server answers, nothing else happens meanwhile. *)
Definition answers (st : Z) (ctype : option string) (text : string) : Script :=
  {| meanwhile_fetch := [];
     fetch_result :=
       Resolves {| status := st; content_type := ctype;
                   meanwhile_body := []; body_result := Resolves text |} |}.

(** The server sleeps past the timeout. *)
Definition sleeps : Script :=
  {| meanwhile_fetch := []; fetch_result := TimerFires |}.

(** The same, and another task calls [setConfig({ timeoutMs: 5000 })]
    while the request is in flight. *)
Definition sleeps_reconfigured : Script :=
  {| meanwhile_fetch := [{| p_baseUrl := None; p_timeoutMs := Some 5000 |}];
     fetch_result := TimerFires |}.

Definition payment_instructions : string :=
  stringify (JObject [("instructions", JString "pay 0.10 USDC")]).

Definition score_basic_url : Url :=
  {| href := "https://api.example/v1/score/basic"; search := [] |}.

End Scenario.

(** ** Observations on runs *)

(** Two worlds with the same objects and the same binding of [config]. *)
Definition same_store (w w' : World) : Prop :=
  heap w = heap w' /\ config w = config w'.

(** The read of the body a response leads to. *)
Definition body_read (r : Response) : Event :=
  if status r =? 402 then EvText
  else if negb (ok (status r)) then EvText
  else if includes "application/json" (default EmptyString (content_type r))
       then EvJson else EvText.

(** The reads of the body a run of the environment leads to. *)
Definition body_reads (s : Script) : list Event :=
  match fetch_result s with
  | Resolves r => [body_read r]
  | _ => []
  end.

(** The two platform calls every dispatched request starts with. *)
Definition dispatched {P : Platform} (opts : RequestOptions P) (url0 : URL)
    (payload : option string) (w : World) : list Event :=
  [EvSetTimeout (next_timer w) (timeoutMs (current w));
   EvFetch (URL_toString (with_params (params opts) url0))
     {| init_method := default GET (method opts);
        init_headers := request_headers;
        init_body := payload;
        init_signal := next_timer w |}].

(** The same run of the network with the other tasks silent. *)
Definition quiet (s : Script) : Script :=
  {| meanwhile_fetch := [];
     fetch_result :=
       match fetch_result s with
       | TimerFires => TimerFires
       | Rejects e => Rejects e
       | Resolves r =>
           Resolves {| status := status r; content_type := content_type r;
                       meanwhile_body := []; body_result := body_result r |}
       end |}.

(** The three decimal digits of a number from 100 to 999, written out
    digit by digit. *)
Definition digit (d : Z) : Ascii.ascii := Ascii.ascii_of_nat (48 + Z.to_nat d).

Definition three_digits (n : Z) : string :=
  String (digit (n / 100))
    (String (digit (n / 10 mod 10)) (String (digit (n mod 10)) EmptyString)).

(** The kind of an [ApiError] read off its message: the four message
    templates start differently. *)
Definition kind_of_message (msg : string) : option ErrorKind :=
  if String.prefix "Payment required (HTTP 402)." msg then Some PaymentRequired
  else if String.prefix "API request failed" msg then Some HttpError
  else if String.prefix "Request timed out" msg then Some Timeout
  else if String.prefix "Network error" msg then Some NetworkError
  else None.

(** The [setConfig] calls of the other tasks that run during a call:
    those made while [fetch] is awaited, if the request is dispatched,
    and those made while the body is awaited, if [fetch] resolves. *)
Definition executed_calls {P : Platform} (opts : RequestOptions P) (s : Script)
    (w : World) : list PartialConfig :=
  match URL_new (path opts) (baseUrl (current w)) with
  | Throw _ => []
  | Normal _ =>
      match request_body (body opts) with
      | Throw _ => []
      | Normal _ =>
          meanwhile_fetch s ++
          match fetch_result s with
          | Resolves r => meanwhile_body r
          | _ => []
          end
      end
  end.

(** The value a sequence of overrides gives a field last, if any does. *)
Definition last_provided {A : Type} (field : PartialConfig -> option A)
    (calls : list PartialConfig) : option A :=
  foldl (fun acc o => match field o with Some v => Some v | None => acc end)
        None calls.

Definition is_fetch (ev : Event) : bool :=
  match ev with EvFetch _ _ => true | _ => false end.

Definition is_read (ev : Event) : bool :=
  match ev with EvText | EvJson => true | _ => false end.

(** Every pending handle was drawn before: the next handle is fresh. *)
Definition timers_fresh (w : World) : Prop :=
  Forall (fun t => (t < next_timer w)%nat) (timers w).

(** ** Users of the module *)

(** What the code around the module can do to it, step by step: call
    [setConfig], call [getConfig] and keep the object it returns, assign
    to a field of an object kept earlier (the [i]-th one), or make a
    request. *)
Inductive Action {P : Platform} :=
| DoSetConfig (o : PartialConfig)
| DoGetConfig
| DoAssign (i : nat) (m : Mutation)
| DoRequest (opts : RequestOptions P) (s : Script).
Arguments Action P : clear implicits.

Record Session := mkSession {
  state : World;
  held : list nat;       (* the references [getConfig] has returned *)
}.

Definition boot (DJD_BASE_URL : option string) : Session :=
  {| state := init DJD_BASE_URL; held := [] |}.

Definition act {P : Platform} (st : Session) (a : Action P) : Session :=
  match a with
  | DoSetConfig o => {| state := setConfig o (state st); held := held st |}
  | DoGetConfig =>
      let (r, w) := getConfig (state st) in
      {| state := w; held := held st ++ [r] |}
  | DoAssign i m =>
      match held st !! i with
      | Some r => {| state := mutate r m (state st); held := held st |}
      | None => st
      end
  | DoRequest opts s =>
      {| state := snd (apiRequest opts s (state st)); held := held st |}
  end.

Definition run {P : Platform} (acts : list (Action P)) (st : Session) : Session :=
  foldl act st acts.

(** No task calls [setConfig] during the run. *)
Definition silent (s : Script) : bool :=
  match meanwhile_fetch s, fetch_result s with
  | [], Resolves r => match meanwhile_body r with [] => true | _ => false end
  | [], _ => true
  | _, _ => false
  end.

(** An action that is no [setConfig], direct or during a request. *)
Definition passive {P : Platform} (a : Action P) : bool :=
  match a with
  | DoSetConfig _ => false
  | DoGetConfig => true
  | DoAssign _ _ => true
  | DoRequest _ s => silent s
  end.

(** What holds of every session: object 0 is [DEFAULT_CONFIG] as the
    module built it, [config] is bound to another, allocated object, and
    the objects handed out by [getConfig] are allocated and are neither
    of the two. *)
Definition session_ok (env : option string) (st : Session) : Prop :=
  heap (state st) !! 0%nat = Some (DEFAULT_CONFIG env)
  /\ (0 < config (state st) < length (heap (state st)))%nat
  /\ Forall (fun r => (0 < r < length (heap (state st)))%nat
                      /\ r <> config (state st)) (held st).

(** ** The tool layer (tools.ts) *)

(** What the tool layer uses of the runtime beyond [Platform]: object
    and array literals, and [JSON.stringify(value, null, 2)]. *)
Class ToolPlatform (P : Platform) := {
  object_literal : list (string * Value) -> Value;
  array_literal : list Value -> Value;
  JSON_stringify_indented : Value -> Completion (option string);
}.

Module Tools.

(** [[a-fA-F0-9]]. *)
Definition hex_digit (c : Ascii.ascii) : bool :=
  let n := Ascii.nat_of_ascii c in
  ((48 <=? n) && (n <=? 57) || (65 <=? n) && (n <=? 70)
   || (97 <=? n) && (n <=? 102))%nat.

Fixpoint all_hex (s : string) : bool :=
  match s with
  | EmptyString => true
  | String c rest => hex_digit c && all_hex rest
  end.

(** The regular expression [/^0x[a-fA-F0-9]{n}$/], tested on the whole
    string.  A character outside ASCII is no hex digit, however the
    string is encoded. *)
Definition hex_string (n : nat) (s : string) : bool :=
  match s with
  | String c0 (String c1 rest) =>
      Nat.eqb (Ascii.nat_of_ascii c0) 48      (* the digit 0 *)
      && Nat.eqb (Ascii.nat_of_ascii c1) 120  (* the letter x *)
      && Nat.eqb (String.length rest) n && all_hex rest
  | _ => false
  end.

(** [WalletSchema] (tools.ts:24-27) and the schema of one entry of
    [tx_hashes] (tools.ts:183). *)
Definition WalletSchema : string -> bool := hex_string 40.
Definition TxHashSchema : string -> bool := hex_string 64.

(** A digit or a letter of ASCII. *)
Definition alphanumeric (c : Ascii.ascii) : bool :=
  let n := Ascii.nat_of_ascii c in
  ((48 <=? n) && (n <=? 57) || (65 <=? n) && (n <=? 90)
   || (97 <=? n) && (n <=? 122))%nat.

(** The result of a tool: [{ isError?, content: [{ type: "text", text }] }].
    [isError] is [None] where the object has no such field; [text] is
    [None] where it is [undefined]. *)
Record ToolResult := mkResult {
  isError : option bool;
  text : option string;
}.

(** [ok] and [err] (tools.ts:31-37). *)
Definition ok (t : option string) : ToolResult :=
  {| isError := None; text := t |}.

Definition err (caught : Raised) : ToolResult :=
  {| isError := Some true; text := Some (formatError caught) |}.

Section Handlers.
Context {P : Platform} {T : ToolPlatform P}.

(** [return ok(JSON.stringify(value, null, 2))] inside the [try]. *)
Definition reply (value : Value) : ToolResult :=
  match JSON_stringify_indented value with
  | Normal t => ok t
  | Throw e => err (Foreign e)
  end.

(** The body the handlers share:
    [try { const data = await apiRequest(opts);
           return ok(JSON.stringify(data, null, 2)); }
     catch (error) { return err(error); }]. *)
Definition call_tool (opts : RequestOptions P) (s : Script) (w : World)
    : ToolResult * World :=
  let (outcome, w') := apiRequest opts s w in
  match outcome with
  | Success data => (reply data, w')
  | Failure kind error => (err (Own kind error), w')
  | Uncaught e => (err (Foreign e), w')
  end.

Definition wallet_query (route wallet : string) : RequestOptions P :=
  {| method := None; path := route;
     params := Some [("wallet", wallet)]; body := None |}.

Definition plain_get (route : string) : RequestOptions P :=
  {| method := None; path := route; params := None; body := None |}.

Definition post (route : string) (payload : Value) : RequestOptions P :=
  {| method := Some POST; path := route; params := None; body := Some payload |}.

(** The nine tools of [registerTools], each on the input its schema
    let through. *)
Definition score_basic (wallet : string) :=
  call_tool (wallet_query "/v1/score/basic" wallet).

Definition score_full (wallet : string) :=
  call_tool (wallet_query "/v1/score/full" wallet).

Definition score_refresh (wallet : string) :=
  call_tool (wallet_query "/v1/score/refresh" wallet).

Definition fraud_report (wallet : string) (tx_hashes : list string)
    (evidence : string) : Value :=
  object_literal [("wallet", of_string wallet);
                  ("txHashes", array_literal (map of_string tx_hashes));
                  ("evidence", of_string evidence)].

Definition report_fraud (wallet : string) (tx_hashes : list string)
    (evidence : string) :=
  call_tool (post "/v1/report" (fraud_report wallet tx_hashes evidence)).

Definition check_blacklist (wallet : string) :=
  call_tool (wallet_query "/v1/data/fraud/blacklist" wallet).

Definition badge_path (wallet : string) : string :=
  "/v1/badge/" +:+ wallet +:+ ".svg".

(** [get_badge] (tools.ts:273-284).  The module is imported anew, which
    is one more [await]: [imports] are the [setConfig] calls other tasks
    make meanwhile.  Then [getConfig()] is read for the badge URL and
    the request is made. *)
Definition get_badge (wallet : string) (imports : list PartialConfig)
    (s : Script) (w : World) : ToolResult * World :=
  let (r, w1) := getConfig (interleave imports w) in
  let badgeUrl := baseUrl (deref w1 r) +:+ "/v1/badge/" +:+ wallet +:+ ".svg" in
  let (outcome, w2) := apiRequest (plain_get (badge_path wallet)) s w1 in
  match outcome with
  | Success svg =>
      (reply (object_literal [("badgeUrl", of_string badgeUrl); ("svg", svg)]), w2)
  | Failure kind error => (err (Own kind error), w2)
  | Uncaught e => (err (Foreign e), w2)
  end.

Definition get_leaderboard := call_tool (plain_get "/v1/leaderboard").

(** [...(github_url ? { githubUrl: github_url } : {})]: nothing for an
    absent or empty [github_url]. *)
Definition github_entry (github_url : option string) : list (string * Value) :=
  match github_url with
  | Some u =>
      if String.eqb u EmptyString then [] else [("githubUrl", of_string u)]
  | None => []
  end.

Definition registration (wallet name description : string)
    (github_url : option string) : Value :=
  object_literal ([("wallet", of_string wallet);
                   ("name", of_string name);
                   ("description", of_string description)]
                  ++ github_entry github_url).

Definition register_agent (wallet name description : string)
    (github_url : option string) :=
  call_tool (post "/v1/agent/register"
               (registration wallet name description github_url)).

Definition health_check := call_tool (plain_get "/health").

End Handlers.

End Tools.

(** The tool layer on the small runtime. *)
Module ToolRuntime.
Import Runtime.

Definition newline : string := String (Ascii.ascii_of_nat 10) EmptyString.

Definition lines (ind : string) (parts : list string) : string :=
  match parts with
  | [] => EmptyString
  | p :: rest =>
      foldl (fun acc q => acc +:+ "," +:+ newline +:+ ind +:+ q) (ind +:+ p) rest
  end.

(** [JSON.stringify(value, null, 2)] at indentation [ind]. *)
Fixpoint stringify_at (ind : string) (v : JsValue) : string :=
  match v with
  | JArray [] => "[]"
  | JArray items =>
      "[" +:+ newline
      +:+ lines (ind +:+ "  ") (map (stringify_at (ind +:+ "  ")) items)
      +:+ newline +:+ ind +:+ "]"
  | JObject [] => "{}"
  | JObject fields =>
      "{" +:+ newline
      +:+ lines (ind +:+ "  ")
            (map (fun kv => quoted (fst kv) +:+ ": "
                            +:+ stringify_at (ind +:+ "  ") (snd kv)) fields)
      +:+ newline +:+ ind +:+ "}"
  | _ => stringify v
  end.

#[export] Instance node_tools : ToolPlatform node := {|
  object_literal := JObject;
  array_literal := JArray;
  JSON_stringify_indented := fun v => Normal (Some (stringify_at EmptyString v));
|}.

End ToolRuntime.

(** A runtime whose values include a BigInt, which [JSON.stringify]
    refuses. *)
Module BigRuntime.
Import Runtime.




End BigRuntime.

(** More scenarios. *)
Module Cases.



(** [fetch] rejects with [e], nothing else happens meanwhile. *)
Definition rejects (e : Thrown) : Script :=
  {| meanwhile_fetch := []; fetch_result := Rejects e |}.


End Cases.

(** * Properties *)

(** ** Strings *)

Lemma append_assoc (a b c : string) : (a +:+ b) +:+ c = a +:+ (b +:+ c).
Proof.
  induction a as [|ch a IH]; [reflexivity|].
  change (String ch ((a +:+ b) +:+ c) = String ch (a +:+ (b +:+ c))).
  now rewrite IH.
Qed.

Lemma prefix_append (p s : string) :
  String.prefix p s = true <-> exists rest, s = p +:+ rest.
Proof.
  revert s. induction p as [|ch p IH]; intros s.
  - split; [intros _; exists s; reflexivity | now destruct s].
  - destruct s as [|ch' s]; cbn [String.prefix].
    + split; [discriminate | intros [rest Hrest]; discriminate Hrest].
    + destruct (Ascii.ascii_dec ch ch') as [Heq|Hne].
      * subst ch'. rewrite IH. split; intros [rest Hrest]; exists rest.
        -- now rewrite Hrest.
        -- now injection Hrest.
      * split; [discriminate | intros [rest Hrest]].
        injection Hrest as Hch _. now subst.
Qed.

Lemma includes_contains (needle hay : string) :
  includes needle hay = true <-> contains needle hay.
Proof.
  induction hay as [|ch hay IH].
  - cbn [includes]. rewrite orb_false_r, prefix_append. split.
    + intros [rest Hrest]. now exists EmptyString, rest.
    + intros ([|c pre] & post & Heq); [now exists post | discriminate Heq].
  - cbn [includes]. rewrite orb_true_iff, prefix_append, IH. split.
    + intros [[rest Hrest] | (pre & post & Heq)].
      * now exists EmptyString, rest.
      * exists (String ch pre), post. now rewrite Heq.
    + intros ([|c pre] & post & Heq).
      * left. now exists post.
      * right. injection Heq as _ Heq. now exists pre, post.
Qed.

Lemma contains_suffix (pre text : string) : contains text (pre +:+ text).
Proof.
  exists pre, EmptyString. f_equal.
  induction text as [|ch text IH]; [reflexivity|].
  change (String ch text = String ch (text +:+ EmptyString)). now rewrite <- IH.
Qed.

Lemma contains_infix (pre text post : string) :
  contains text (pre +:+ text +:+ post).
Proof. now exists pre, post. Qed.

Lemma length_append (a b : string) :
  String.length (a +:+ b) = (String.length a + String.length b)%nat.
Proof.
  induction a as [|ch a IH]; [reflexivity|].
  change (S (String.length (a +:+ b)) = S (String.length a + String.length b)).
  now rewrite IH.
Qed.

Lemma append_cancel_l (p a b : string) : p +:+ a = p +:+ b -> a = b.
Proof.
  induction p as [|ch p IH]; intros H; [exact H|].
  change (String ch (p +:+ a) = String ch (p +:+ b)) in H.
  injection H as H. now apply IH.
Qed.

Lemma append_cancel_r (a b c : string) : a +:+ c = b +:+ c -> a = b.
Proof.
  revert b. induction a as [|x a IH]; intros [|y b] H.
  - reflexivity.
  - apply (f_equal String.length) in H. rewrite !length_append in H.
    cbn [String.length] in H. lia.
  - apply (f_equal String.length) in H. rewrite !length_append in H.
    cbn [String.length] in H. lia.
  - change (String x (a +:+ c) = String y (b +:+ c)) in H.
    injection H as -> H. f_equal. now apply IH.
Qed.

(** [show] is one-to-one: the number printed can be read back. *)
Lemma show_inj (n m : Z) : show n = show m -> n = m.
Proof. unfold show. apply pretty_Z_inj. Qed.

(** From 100 to 999 [show] prints the three decimal digits. *)
Lemma show_three_digits (n : Z) :
  100 <= n <= 999 -> show n = three_digits n.
Proof.
  intros Hn.
  assert (Hall : forallb (fun k => String.eqb (show (Z.of_nat k))
                                              (three_digits (Z.of_nat k)))
                         (seq 100 900) = true) by (vm_compute; reflexivity).
  rewrite forallb_forall in Hall.
  specialize (Hall (Z.to_nat n)). rewrite Z2Nat.id in Hall by lia.
  apply String.eqb_eq, Hall, in_seq. lia.
Qed.

(** ** The configuration store *)

Lemma deref_alloc (c : ServerConfig) (w : World) :
  deref (snd (alloc c w)) (fst (alloc c w)) = c.
Proof.
  unfold deref, alloc; simpl.
  now rewrite lookup_app_r, Nat.sub_diag by lia.
Qed.

Lemma deref_alloc_old (c : ServerConfig) (w : World) (r : nat) :
  (r < length (heap w))%nat -> deref (snd (alloc c w)) r = deref w r.
Proof.
  intros Hr. unfold deref, alloc; simpl. now rewrite lookup_app_l.
Qed.

Lemma current_setConfig (o : PartialConfig) (w : World) :
  current (setConfig o w) = spread (current w) o.
Proof.
  unfold current at 1, setConfig, deref; simpl.
  now rewrite lookup_app_r, Nat.sub_diag by lia.
Qed.

Lemma config_bound_init (v : option string) : config_bound (init v).
Proof. unfold config_bound; simpl; lia. Qed.

Lemma config_bound_setConfig (o : PartialConfig) (w : World) :
  config_bound (setConfig o w).
Proof. unfold config_bound, setConfig; simpl. rewrite length_app; simpl; lia. Qed.

Lemma config_bound_getConfig (w : World) :
  config_bound w -> config_bound (snd (getConfig w)).
Proof. unfold config_bound, getConfig; simpl. rewrite length_app; simpl; lia. Qed.

Lemma config_bound_mutate (r : nat) (m : Mutation) (w : World) :
  config_bound w -> config_bound (mutate r m w).
Proof. unfold config_bound, mutate; simpl. now rewrite length_alter. Qed.

(** Writing through a reference leaves every other object as it is. *)
Lemma deref_mutate_all_other (r r' : nat) (ms : list Mutation) (w : World) :
  r <> r' -> deref (mutate_all r ms w) r' = deref w r'.
Proof.
  intros Hne. revert w. induction ms as [|m ms IH]; intros w; [reflexivity|].
  simpl. rewrite IH. unfold deref, mutate; simpl.
  now rewrite list_lookup_alter_ne.
Qed.

Lemma config_mutate_all (r : nat) (ms : list Mutation) (w : World) :
  config (mutate_all r ms w) = config w.
Proof. revert w. induction ms as [|m ms IH]; intros w; [reflexivity|]. simpl. now rewrite IH. Qed.

Lemma length_heap_mutate_all (r : nat) (ms : list Mutation) (w : World) :
  length (heap (mutate_all r ms w)) = length (heap w).
Proof.
  revert w. induction ms as [|m ms IH]; intros w; [reflexivity|].
  simpl. rewrite IH. unfold mutate; simpl. apply length_alter.
Qed.

(** C8. [setConfig] replaces exactly the fields the override provides
    and keeps the others: after it each field of the configuration is
    the override's value where there is one and the previous value
    where there is none.  In particular after
    [setConfig({ timeoutMs: 5000 })] the object [getConfig] returns has
    the previous [baseUrl] and [timeoutMs] 5000. *)
Theorem C8_setConfig_merges (o : PartialConfig) (w : World) :
  baseUrl (current (setConfig o w)) =
    match p_baseUrl o with Some v => v | None => baseUrl (current w) end
  /\ timeoutMs (current (setConfig o w)) =
    match p_timeoutMs o with Some v => v | None => timeoutMs (current w) end
  /\ (let w' := setConfig {| p_baseUrl := None; p_timeoutMs := Some 5000 |} w in
      deref (snd (getConfig w')) (fst (getConfig w')) =
        {| baseUrl := baseUrl (current w); timeoutMs := 5000 |}).
Proof.
  rewrite current_setConfig. split; [|split].
  - unfold spread; simpl. now destruct (p_baseUrl o).
  - unfold spread; simpl. now destruct (p_timeoutMs o).
  - cbv zeta. unfold getConfig. now rewrite deref_alloc, current_setConfig.
Qed.

(** C9. [getConfig] returns a copy of the current configuration: the
    object returned has the fields of the configuration and is another
    object than the one [config] is bound to; whatever assignments a
    caller makes through the returned reference, the configuration is
    as before, and the next [getConfig] returns what the first one
    returned before the assignments. *)
Theorem C9_getConfig_returns_copy (w : World) (ms : list Mutation) :
  config_bound w ->
  let r := fst (getConfig w) in
  let w1 := snd (getConfig w) in
  let w2 := mutate_all r ms w1 in
  deref w1 r = current w
  /\ r <> config w
  /\ current w2 = current w
  /\ deref (snd (getConfig w2)) (fst (getConfig w2)) = current w.
Proof.
  intros Hb r w1 w2.
  assert (Hr : r = length (heap w)) by reflexivity.
  assert (Hne : r <> config w) by (unfold config_bound in Hb; lia).
  assert (Hcur : current w2 = current w).
  { unfold current, w2. rewrite config_mutate_all.
    rewrite deref_mutate_all_other by exact Hne.
    unfold w1, getConfig. now apply deref_alloc_old. }
  split; [apply deref_alloc|].
  split; [exact Hne|].
  split; [exact Hcur|].
  unfold getConfig. now rewrite deref_alloc.
Qed.

Lemma C9_getConfig_returns_copy_witness :
  config_bound (init None)
  /\ current (mutate_all (fst (getConfig (init None)))
                [SetBaseUrl "https://evil.example"; SetTimeoutMs 1]
                (snd (getConfig (init None))))
     = current (init None).
Proof.
  split; [apply config_bound_init|].
  apply (C9_getConfig_returns_copy (init None)
           [SetBaseUrl "https://evil.example"; SetTimeoutMs 1]).
  apply config_bound_init.
Defined.

(** ** The request helper: what a call leaves of the world *)

Lemma same_store_refl (w : World) : same_store w w.
Proof. now split. Qed.

Lemma same_store_trans (w1 w2 w3 : World) :
  same_store w1 w2 -> same_store w2 w3 -> same_store w1 w3.
Proof. intros [H1 H2] [H3 H4]. split; congruence. Qed.

Lemma same_store_current (w w' : World) :
  same_store w w' -> current w = current w'.
Proof. intros [Hh Hc]. unfold current, deref. now rewrite Hh, Hc. Qed.

Lemma same_store_setConfig (o : PartialConfig) (w w' : World) :
  same_store w w' -> same_store (setConfig o w) (setConfig o w').
Proof.
  intros Hs. pose proof (same_store_current _ _ Hs) as Hc.
  destruct Hs as [Hh Hr]. unfold same_store, setConfig; simpl.
  now rewrite Hh, Hc.
Qed.

Lemma same_store_interleave (calls : list PartialConfig) (w w' : World) :
  same_store w w' -> same_store (interleave calls w) (interleave calls w').
Proof.
  revert w w'. induction calls as [|o calls IH]; intros w w' Hs; [exact Hs|].
  simpl. apply IH. now apply same_store_setConfig.
Qed.

Lemma same_store_record_event (ev : Event) (w : World) :
  same_store (record_event ev w) w.
Proof. now split. Qed.

Lemma same_store_drop_timer (t : nat) (w : World) :
  same_store (drop_timer t w) w.
Proof. now split. Qed.

Lemma same_store_setTimeout (d : Z) (w : World) :
  same_store (snd (setTimeout d w)) w.
Proof. now split. Qed.

(** The other tasks touch neither the timers nor the log of the call. *)
Lemma interleave_frame (calls : list PartialConfig) (w : World) :
  timers (interleave calls w) = timers w
  /\ next_timer (interleave calls w) = next_timer w
  /\ log (interleave calls w) = log w.
Proof.
  revert w. induction calls as [|o calls IH]; intros w; [easy|].
  simpl. destruct (IH (setConfig o w)) as (-> & -> & ->). easy.
Qed.

Lemma config_bound_interleave (calls : list PartialConfig) (w : World) :
  config_bound w -> config_bound (interleave calls w).
Proof.
  revert w. induction calls as [|o calls IH]; intros w Hb; [exact Hb|].
  simpl. apply IH, config_bound_setConfig.
Qed.

Section ClientFacts.
Context {P : Platform}.

(** What an [await] leaves: the thrown value or the result, and the
    world after the other tasks ran, less the timer if it fired. *)
Lemma await_eq {A : Type} (t : nat) (calls : list PartialConfig)
    (s : Settled A) (w : World) :
  await t calls s w =
    (match s with
     | TimerFires => inl abort_error
     | Rejects e => inl e
     | Resolves a => inr a
     end,
     match s with
     | TimerFires => drop_timer t (interleave calls w)
     | _ => interleave calls w
     end).
Proof. unfold await. now destruct s. Qed.

Lemma await_same_store {A : Type} (t : nat) (calls : list PartialConfig)
    (s : Settled A) (w : World) :
  same_store (snd (await t calls s w)) (interleave calls w).
Proof. rewrite await_eq. destruct s; simpl; now split. Qed.

Lemma await_log {A : Type} (t : nat) (calls : list PartialConfig)
    (s : Settled A) (w : World) :
  log (snd (await t calls s w)) = log w.
Proof.
  rewrite await_eq. destruct (interleave_frame calls w) as (_ & _ & Hl).
  now destruct s.
Qed.

Lemma await_timers {A : Type} (t : nat) (calls : list PartialConfig)
    (s : Settled A) (w : World) (x : nat) :
  x ∈ timers (snd (await t calls s w)) -> x ∈ timers w.
Proof.
  rewrite await_eq. destruct (interleave_frame calls w) as (Ht & _ & _).
  destruct s; simpl; rewrite ?Ht; try easy.
  rewrite list_elem_of_filter. now intros [_ Hx].
Qed.

Lemma on_response_log (t : nat) (r : Response) (w : World) :
  log (snd (on_response t r w)) = log w ++ [body_read r].
Proof.
  unfold on_response, body_read.
  destruct (status r =? 402); [|destruct (negb (ok (status r)));
    [|destruct (includes "application/json" (default EmptyString (content_type r)))]].
  all: match goal with
       | |- context [await ?t ?c ?p ?w0] =>
           pose proof (await_log t c p w0) as Hl;
           destruct (await t c p w0) as [[e|a] w']
       end; exact Hl.
Qed.

Lemma on_response_timers (t : nat) (r : Response) (w : World) (x : nat) :
  x ∈ timers (snd (on_response t r w)) -> x ∈ timers w.
Proof.
  unfold on_response.
  destruct (status r =? 402); [|destruct (negb (ok (status r)));
    [|destruct (includes "application/json" (default EmptyString (content_type r)))]].
  all: match goal with
       | |- context [await ?t ?c ?p ?w0] =>
           pose proof (await_timers t c p w0 x) as Hl;
           destruct (await t c p w0) as [[e|a] w']
       end; exact Hl.
Qed.

Lemma try_block_log (m : Method) (url : URL) (b : option Value) (t : nat)
    (s : Script) (w : World) :
  log (snd (try_block m url b t s w)) =
    log w ++
    match request_body b with
    | Throw _ => []
    | Normal payload =>
        EvFetch (URL_toString url)
          {| init_method := m; init_headers := request_headers;
             init_body := payload; init_signal := t |} :: body_reads s
    end.
Proof.
  unfold try_block, body_reads.
  destruct (request_body b) as [payload|e]; [|now rewrite app_nil_r].
  cbv zeta. rewrite await_eq.
  match goal with
  | |- context [interleave ?c ?w0] =>
      destruct (interleave_frame c w0) as (_ & _ & Hl)
  end.
  destruct (fetch_result s) as [|e|r]; cbn [snd fst].
  - exact Hl.
  - exact Hl.
  - rewrite on_response_log, Hl. cbn [record_event log].
    now rewrite <- app_assoc.
Qed.

Lemma try_block_timers (m : Method) (url : URL) (b : option Value) (t : nat)
    (s : Script) (w : World) (x : nat) :
  x ∈ timers (snd (try_block m url b t s w)) -> x ∈ timers w.
Proof.
  unfold try_block.
  destruct (request_body b) as [payload|e]; [|easy].
  cbv zeta.
  match goal with
  | |- context [await ?t ?c ?p ?w0] =>
      pose proof (await_timers t c p w0 x) as Hl;
      destruct (await t c p w0) as [[e|a] w']
  end; [exact Hl|].
  intros Hx. now apply Hl, on_response_timers with (t := t) (r := a).
Qed.

Lemma config_bound_same_store (w w' : World) :
  same_store w w' -> config_bound w' -> config_bound w.
Proof. intros [Hh Hc]. unfold config_bound. now rewrite Hh, Hc. Qed.

Lemma await_config_bound {A : Type} (t : nat) (calls : list PartialConfig)
    (s : Settled A) (w : World) :
  config_bound w -> config_bound (snd (await t calls s w)).
Proof.
  intros Hb. apply (config_bound_same_store _ _ (await_same_store t calls s w)).
  now apply config_bound_interleave.
Qed.

Lemma on_response_config_bound (t : nat) (r : Response) (w : World) :
  config_bound w -> config_bound (snd (on_response t r w)).
Proof.
  intros Hb. unfold on_response.
  destruct (status r =? 402); [|destruct (negb (ok (status r)));
    [|destruct (includes "application/json" (default EmptyString (content_type r)))]].
  all: match goal with
       | |- context [await ?t ?c ?p ?w0] =>
           pose proof (await_config_bound t c p w0 Hb) as Hl;
           destruct (await t c p w0) as [[e|a] w']
       end; exact Hl.
Qed.

Lemma try_block_config_bound (m : Method) (url : URL) (b : option Value)
    (t : nat) (s : Script) (w : World) :
  config_bound w -> config_bound (snd (try_block m url b t s w)).
Proof.
  intros Hb. unfold try_block.
  destruct (request_body b) as [payload|e]; [|exact Hb].
  cbv zeta.
  match goal with
  | |- context [await ?t ?c ?p ?w0] =>
      pose proof (await_config_bound t c p w0 Hb) as Hl;
      destruct (await t c p w0) as [[e|a] w']
  end; [exact Hl|].
  now apply on_response_config_bound.
Qed.

(** The variable [config] stays bound across a call. *)
Lemma config_bound_apiRequest (opts : RequestOptions P) (s : Script) (w : World) :
  config_bound w -> config_bound (snd (apiRequest opts s w)).
Proof.
  intros Hb. unfold apiRequest.
  destruct (URL_new (path opts) (baseUrl (current w))) as [url0|e]; [|exact Hb].
  unfold setTimeout. cbv zeta.
  match goal with
  | |- context [try_block ?m ?u ?b ?t ?s ?w0] =>
      pose proof (try_block_config_bound m u b t s w0 Hb) as Hl;
      destruct (try_block m u b t s w0) as [r w2]
  end.
  exact Hl.
Qed.

End ClientFacts.

(** ** The request helper: outcomes *)

Section Outcomes.
Context {P : Platform}.
Implicit Types (opts : RequestOptions P) (s : Script) (w : World).

Ltac start_request Hurl Hbody :=
  unfold apiRequest; rewrite Hurl; unfold setTimeout;
  cbv zeta; unfold try_block; rewrite Hbody; cbv zeta; rewrite await_eq.

(** The platform calls of a call whose URL parsed, in order. *)
Lemma apiRequest_log opts s w (url0 : URL) :
  URL_new (path opts) (baseUrl (current w)) = Normal url0 ->
  log (snd (apiRequest opts s w)) =
    log w ++
    match request_body (body opts) with
    | Throw _ => [EvSetTimeout (next_timer w) (timeoutMs (current w))]
    | Normal payload => dispatched opts url0 payload w ++ body_reads s
    end ++ [EvClearTimeout (next_timer w)].
Proof.
  intros Hurl. unfold apiRequest. rewrite Hurl. unfold setTimeout. cbv zeta.
  match goal with
  | |- context [try_block ?m ?u ?b ?t ?s ?w0] =>
      pose proof (try_block_log m u b t s w0) as Hl;
      destruct (try_block m u b t s w0) as [r w2]
  end.
  cbn [snd log] in *. unfold clearTimeout, record_event. cbn [log drop_timer].
  rewrite Hl. unfold dispatched.
  destruct (request_body (body opts)); cbn; now rewrite <- !app_assoc.
Qed.

(** C1. A request that was dispatched and answered with a status
    outside 200-299, whose body is then read as [text], is rejected
    with an [ApiError]: for status 402, whatever the method, the
    payment-required error, whose message ends with [text] and whose
    [statusCode] is 402; for any other such status the HTTP error,
    whose message is the fixed opening, the status in decimal, a colon
    and [text], and whose [statusCode] is the status.  The status can
    be read back from that message, and for a status of three digits
    the message holds these digits. *)
Theorem C1_non_2xx_status opts s w (url0 : URL) (payload : option string)
    (r : Response) (text : string) :
  URL_new (path opts) (baseUrl (current w)) = Normal url0 ->
  request_body (body opts) = Normal payload ->
  fetch_result s = Resolves r ->
  ok (status r) = false ->
  response_text r = Resolves text ->
  let paid :=
    "Payment required (HTTP 402). This is a paid endpoint that requires x402 payment. Your agent framework must handle the 402 response and provide payment. Details: "
    +:+ text in
  let failed (st : Z) :=
    "API request failed with status " +:+ show st +:+ ": " +:+ text in
  fst (apiRequest opts s w) =
    (if status r =? 402
     then Failure PaymentRequired (new_ApiError paid 402)
     else Failure HttpError (new_ApiError (failed (status r)) (status r)))
  /\ contains text paid
  /\ contains (show (status r)) (failed (status r))
  /\ contains text (failed (status r))
  /\ (forall st, failed st = failed (status r) -> st = status r)
  /\ (100 <= status r <= 999 ->
      contains (three_digits (status r)) (failed (status r))).
Proof.
  intros Hurl Hbody Hfetch Hok Htext paid failed. split.
  - start_request Hurl Hbody. rewrite Hfetch. unfold on_response.
    rewrite Hok. cbn [negb]. rewrite !await_eq, Htext.
    now destruct (status r =? 402).
  - unfold paid, failed. split; [|split; [|split; [|split]]].
    + apply contains_suffix.
    + apply contains_infix.
    + rewrite <- !append_assoc. apply contains_suffix.
    + intros st Heq. apply append_cancel_l, append_cancel_r in Heq.
      now apply show_inj.
    + intros Hst. rewrite <- (show_three_digits _ Hst). apply contains_infix.
Qed.

(** C2. When [fetch] throws instead of answering, the call is rejected
    with [statusCode] 0.  If what is thrown is the abort the timer
    triggers (a [DOMException] named AbortError), the error is the
    timeout error and its message states [timeoutMs] of the
    configuration in force when the handler runs, that is after the
    [setConfig] calls the other tasks made meanwhile; the duration can
    be read back from the message.  Anything else thrown, be it a
    [DOMException] of another name, any other [Error] or a value that is
    no [Error], gives the network error, whose message is Network
    error, a colon and the thrown error's message (for a value that is
    no [Error], what [String] makes of it). *)
Theorem C2_transport_exception opts s w (url0 : URL) (payload : option string)
    (e : Thrown) :
  URL_new (path opts) (baseUrl (current w)) = Normal url0 ->
  request_body (body opts) = Normal payload ->
  fetch_result s = Rejects e \/ (fetch_result s = TimerFires /\ e = abort_error) ->
  let configured := timeoutMs (current (interleave (meanwhile_fetch s) w)) in
  let timed_out (ms : Z) :=
    "Request timed out after " +:+ show ms
    +:+ "ms. Try again or increase timeout." in
  let network (detail : string) : Outcome P :=
    Failure NetworkError (new_ApiError ("Network error: " +:+ detail) 0) in
  fst (apiRequest opts s w) =
    match e with
    | DOMException name msg =>
        if String.eqb name "AbortError"
        then Failure Timeout (new_ApiError (timed_out configured) 0)
        else network msg
    | Error _ msg => network msg
    | NotAnError rendering => network rendering
    end
  /\ abort_error = DOMException "AbortError" "This operation was aborted"
  /\ contains (show configured) (timed_out configured)
  /\ (forall ms, timed_out ms = timed_out configured -> ms = configured)
  /\ (forall detail, contains detail ("Network error: " +:+ detail)).
Proof.
  intros Hurl Hbody Hthrown configured timed_out network.
  split; [|split; [reflexivity|split; [|split]]].
  - start_request Hurl Hbody.
    assert (Hcur : forall w', same_store w' w ->
              current (interleave (meanwhile_fetch s) w') =
              current (interleave (meanwhile_fetch s) w)).
    { intros w' Hs. now apply same_store_current, same_store_interleave. }
    destruct Hthrown as [-> | [-> ->]]; cbn [fst]; unfold catch_block.
    + destruct e as [name msg|name msg|rendering]; cbn [isAbort describe];
        try reflexivity.
      destruct (String.eqb name "AbortError"); [|reflexivity].
      rewrite Hcur by now split. reflexivity.
    + cbn [isAbort abort_error String.eqb Ascii.eqb Bool.eqb].
      rewrite (same_store_current _ _ (same_store_drop_timer _ _)).
      rewrite Hcur by now split. reflexivity.
  - apply contains_infix.
  - intros ms Heq. unfold timed_out in Heq.
    apply append_cancel_l, append_cancel_r in Heq. now apply show_inj.
  - intros detail. apply contains_suffix.
Qed.

Lemma ok_not_402 (st : Z) : ok st = true -> (st =? 402) = false.
Proof. unfold ok. lia. Qed.

(** C3. A request answered with a status in 200-299 resolves with the
    body: when the content-type header contains application/json and
    the body parses, with the value [JSON.parse] gave, as it is; when
    the header says anything else or is missing, with the text of the
    body, and then the only read of the body is [response.text()]:
    [response.json()] is never called. *)
Theorem C3_success_payload opts s w (url0 : URL) (payload : option string)
    (r : Response) (text : string) :
  URL_new (path opts) (baseUrl (current w)) = Normal url0 ->
  request_body (body opts) = Normal payload ->
  fetch_result s = Resolves r ->
  ok (status r) = true ->
  body_result r = Resolves text ->
  let json := includes "application/json" (default EmptyString (content_type r)) in
  (forall v, json = true -> JSON_parse text = inr v ->
     fst (apiRequest opts s w) = Success v)
  /\ (json = false ->
      fst (apiRequest opts s w) = Success (of_string text)
      /\ log (snd (apiRequest opts s w)) =
           log w ++ dispatched opts url0 payload w
                 ++ [EvText; EvClearTimeout (next_timer w)]).
Proof.
  intros Hurl Hbody Hfetch Hok Htext json.
  assert (Hout : fst (apiRequest opts s w) =
            if json
            then match JSON_parse text with
                 | inl msg =>
                     Failure NetworkError
                       (new_ApiError (network_error_message msg) 0)
                 | inr v => Success v
                 end
            else Success (of_string text)).
  { start_request Hurl Hbody. rewrite Hfetch. unfold on_response.
    rewrite (ok_not_402 _ Hok), Hok. cbn [negb]. fold json.
    rewrite !await_eq. unfold response_json, response_text. rewrite Htext.
    destruct json; [destruct (JSON_parse text)|]; reflexivity. }
  rewrite Hout. split.
  - intros v Hj Hv. now rewrite Hj, Hv.
  - intros Hj. rewrite Hj. split; [reflexivity|].
    rewrite (apiRequest_log _ _ _ _ Hurl), Hbody.
    unfold body_reads, body_read. rewrite Hfetch, (ok_not_402 _ Hok), Hok.
    cbn [negb]. fold json. rewrite Hj. now rewrite <- !app_assoc.
Qed.


(** C5. The timer a call starts is pending no more when the call
    returns, whatever the environment does (success, 402, other HTTP
    failure, timeout, network error): the call leaves no timer pending
    that was not pending before it; when the URL parses, the handle it
    drew is not pending afterwards and [clearTimeout] on that handle is
    the last platform call; when the URL does not parse, no timer was
    started and the world is as before. *)
Theorem C5_timer_released opts s w :
  timers (snd (apiRequest opts s w)) ⊆ timers w
  /\ (match URL_new (path opts) (baseUrl (current w)) with
      | Throw _ => snd (apiRequest opts s w) = w
      | Normal _ =>
          (next_timer w ∉ timers (snd (apiRequest opts s w)))
          /\ exists calls,
               log (snd (apiRequest opts s w)) =
                 log w ++ EvSetTimeout (next_timer w) (timeoutMs (current w))
                       :: calls ++ [EvClearTimeout (next_timer w)]
      end).
Proof.
  assert (Hpending : forall x, x ∈ timers (snd (apiRequest opts s w)) ->
            x ∈ timers w /\
            (match URL_new (path opts) (baseUrl (current w)) with
             | Throw _ => True
             | Normal _ => x <> next_timer w
             end)).
  { intros x. unfold apiRequest.
    destruct (URL_new (path opts) (baseUrl (current w))) as [url0|e]; [|easy].
    unfold setTimeout. cbv zeta.
    match goal with
    | |- context [try_block ?m ?u ?b ?t ?s ?w0] =>
        pose proof (try_block_timers m u b t s w0 x) as Ht;
        destruct (try_block m u b t s w0) as [r w2]
    end.
    cbn [snd timers clearTimeout record_event drop_timer] in *.
    rewrite list_elem_of_filter. intros [Hne Hx]. split; [|exact Hne].
    apply Ht in Hx. apply elem_of_cons in Hx as [Hx|Hx]; [contradiction|exact Hx]. }
  split.
  - intros x Hx. now apply Hpending.
  - pose proof (apiRequest_log opts s w) as Hlog.
    destruct (URL_new (path opts) (baseUrl (current w))) as [url0|e] eqn:Hurl.
    + split.
      * intros Hin. now destruct (Hpending _ Hin) as [_ Hne].
      * rewrite (Hlog url0 eq_refl). unfold dispatched.
        destruct (request_body (body opts)) as [payload|e'].
        -- exists (EvFetch (URL_toString (with_params (params opts) url0))
                     {| init_method := default GET (method opts);
                        init_headers := request_headers;
                        init_body := payload;
                        init_signal := next_timer w |} :: body_reads s).
           reflexivity.
        -- exists []. reflexivity.
    + unfold apiRequest. now rewrite Hurl.
Qed.

(** C6, as the code has it.  A dispatched call goes out with the
    headers Content-Type: application/json and Accept: application/json
    and the method of the descriptor (GET when it names none).  Its
    body is what [JSON.stringify] answers for the descriptor's [body]
    when that value is truthy; when the field is absent, and also when
    it holds a falsy value, the call has no body. *)
Theorem C6_request_sent opts s w (url0 : URL) (payload : option string) :
  URL_new (path opts) (baseUrl (current w)) = Normal url0 ->
  request_body (body opts) = Normal payload ->
  log (snd (apiRequest opts s w)) =
    log w ++
    [EvSetTimeout (next_timer w) (timeoutMs (current w));
     EvFetch (URL_toString (with_params (params opts) url0))
       {| init_method := default GET (method opts);
          init_headers := [("Content-Type", "application/json");
                           ("Accept", "application/json")];
          init_body := payload;
          init_signal := next_timer w |}]
    ++ body_reads s ++ [EvClearTimeout (next_timer w)]
  /\ match body opts with
     | None => payload = None
     | Some b =>
         if ToBoolean b then JSON_stringify b = Normal payload
         else payload = None
     end.
Proof.
  intros Hurl Hbody. split.
  - rewrite (apiRequest_log _ _ _ _ Hurl), Hbody. unfold dispatched.
    now rewrite <- !app_assoc.
  - unfold request_body in Hbody. destruct (body opts) as [b|].
    + destruct (ToBoolean b); [exact Hbody | now injection Hbody].
    + now injection Hbody.
Qed.

(** C4, where the code departs from it.  [new URL] stands before the
    [try] block: when it throws, the call is rejected with that very
    exception, which is no [ApiError], and nothing else has happened. *)
Theorem C4_invalid_url_escapes opts s w (e : Thrown) :
  URL_new (path opts) (baseUrl (current w)) = Throw e ->
  apiRequest opts s w = (Uncaught e, w).
Proof. intros Hurl. unfold apiRequest. now rewrite Hurl. Qed.

(** Past the URL every way out of the call is a payload or an
    [ApiError]: the [catch] block classifies whatever is thrown. *)
Lemma apiRequest_classified opts s w (url0 : URL) :
  URL_new (path opts) (baseUrl (current w)) = Normal url0 ->
  (exists v, fst (apiRequest opts s w) = Success v)
  \/ (exists kind error, fst (apiRequest opts s w) = Failure kind error).
Proof.
  intros Hurl. unfold apiRequest. rewrite Hurl. unfold setTimeout. cbv zeta.
  destruct (try_block _ _ _ _ _ _) as [[[kind error|e]|v] w2]; cbn [fst].
  - right. now exists kind, error.
  - right. unfold catch_block. destruct (isAbort e); eauto.
  - left. now exists v.
Qed.

(** The errors a call can be rejected with are the four the helper
    builds, each with the status code of its kind. *)
Lemma apiRequest_failure_shape opts s w (kind : ErrorKind) (error : ApiError) :
  fst (apiRequest opts s w) = Failure kind error ->
  match kind with
  | PaymentRequired =>
      exists text, error = new_ApiError (payment_required_message text) 402
  | HttpError =>
      exists st text, error = new_ApiError (http_error_message st text) st
                      /\ ok st = false /\ st <> 402
  | Timeout => exists ms, error = new_ApiError (timeout_message ms) 0
  | NetworkError =>
      exists detail, error = new_ApiError (network_error_message detail) 0
  end.
Proof.
  assert (Hcatch : forall r w', catch_block (P := P) r w' = Failure kind error ->
            (exists e, r = Foreign e) ->
            match kind with
            | Timeout => exists ms, error = new_ApiError (timeout_message ms) 0
            | NetworkError =>
                exists detail, error = new_ApiError (network_error_message detail) 0
            | _ => False
            end).
  { intros r w' Hc [e ->]. unfold catch_block in Hc.
    destruct (isAbort e); injection Hc as <- <-; eauto. }
  assert (Hforeign : forall e w',
            catch_block (P := P) (Foreign e) w' = Failure kind error ->
            match kind with
            | PaymentRequired =>
                exists text, error = new_ApiError (payment_required_message text) 402
            | HttpError =>
                exists st text, error = new_ApiError (http_error_message st text) st
                                /\ ok st = false /\ st <> 402
            | Timeout => exists ms, error = new_ApiError (timeout_message ms) 0
            | NetworkError =>
                exists detail, error = new_ApiError (network_error_message detail) 0
            end).
  { intros e w' Hc. specialize (Hcatch _ _ Hc (ex_intro _ e eq_refl)).
    now destruct kind. }
  unfold apiRequest.
  destruct (URL_new (path opts) (baseUrl (current w))) as [url0|e]; [|discriminate].
  unfold setTimeout. cbv zeta. unfold try_block.
  destruct (request_body (body opts)) as [payload|e]; [|now apply Hforeign].
  cbv zeta. rewrite await_eq.
  destruct (fetch_result s) as [|e|r]; cbn [fst snd];
    [now apply Hforeign | now apply Hforeign |].
  unfold on_response.
  destruct (status r =? 402) eqn:H402;
    [|destruct (negb (ok (status r))) eqn:Hok;
      [|destruct (includes "application/json"
                    (default EmptyString (content_type r)))]];
    rewrite await_eq.
  - destruct (response_text r) as [|e|text]; cbn [fst snd];
      [now apply Hforeign | now apply Hforeign |].
    unfold catch_block. intros Hc. injection Hc as <- <-. eauto.
  - destruct (response_text r) as [|e|text]; cbn [fst snd];
      [now apply Hforeign | now apply Hforeign |].
    unfold catch_block. intros Hc. injection Hc as <- <-.
    exists (status r), text. split; [reflexivity|].
    split; [now destruct (ok (status r)) | lia].
  - destruct (response_json r) as [|e|v]; cbn [fst snd];
      [now apply Hforeign | now apply Hforeign | discriminate].
  - destruct (response_text r) as [|e|text]; cbn [fst snd];
      [now apply Hforeign | now apply Hforeign | discriminate].
Qed.

(** The kind is no hidden label: it can be read off the message. *)
Lemma kind_recoverable opts s w (kind : ErrorKind) (error : ApiError) :
  fst (apiRequest opts s w) = Failure kind error ->
  kind_of_message (message error) = Some kind.
Proof.
  intros Hf. apply apiRequest_failure_shape in Hf.
  destruct kind.
  - destruct Hf as [text ->]. reflexivity.
  - destruct Hf as (st & text & -> & _). reflexivity.
  - destruct Hf as [ms ->]. reflexivity.
  - destruct Hf as [detail ->]. reflexivity.
Qed.

(** C7, as the code has it.  [setConfig] calls made by other tasks
    while a call is in flight do not change the platform calls it makes:
    the URL, the delay of the timer and the request are those of the
    configuration at the start of the call.  Nor do they change its
    outcome, with one exception: when the call ends in the timeout
    error, the duration its message states may differ, since the
    message is built from the configuration in force when the abort is
    handled.  A run and the same run with the other tasks silent make
    the same platform calls and have the same outcome unless both end
    in the timeout error. *)
Theorem C7_mid_call_setConfig opts s w :
  log (snd (apiRequest opts s w)) = log (snd (apiRequest opts (quiet s) w))
  /\ (fst (apiRequest opts s w) = fst (apiRequest opts (quiet s) w)
      \/ exists ms ms',
           fst (apiRequest opts s w) =
             Failure Timeout (new_ApiError (timeout_message ms) 0)
           /\ fst (apiRequest opts (quiet s) w) =
             Failure Timeout (new_ApiError (timeout_message ms') 0)).
Proof.
  split.
  - destruct (URL_new (path opts) (baseUrl (current w))) as [url0|e] eqn:Hurl.
    + rewrite !(apiRequest_log _ _ _ _ Hurl). do 3 f_equal.
      destruct (request_body (body opts)); [|reflexivity]. f_equal.
      unfold body_reads, quiet; cbn. now destruct (fetch_result s).
    + unfold apiRequest. now rewrite Hurl.
  - unfold apiRequest.
    destruct (URL_new (path opts) (baseUrl (current w))) as [url0|e];
      [|now left].
    unfold setTimeout. cbv zeta. unfold try_block.
    destruct (request_body (body opts)) as [payload|e]; [|now left].
    cbv zeta. rewrite !await_eq. unfold quiet; cbn [fetch_result meanwhile_fetch].
    destruct (fetch_result s) as [|e|r]; cbn [fst snd].
    + right. unfold catch_block. cbn. eauto.
    + unfold catch_block. destruct (isAbort e); [right; eauto | now left].
    + unfold on_response, response_text, response_json.
      cbn [status content_type meanwhile_body body_result].
      destruct (status r =? 402); [|destruct (negb (ok (status r)));
        [|destruct (includes "application/json"
                      (default EmptyString (content_type r)))]];
        rewrite !await_eq;
        destruct (body_result r) as [|e|text]; cbn [fst snd];
        try (now left); unfold catch_block;
        try (right; cbn; eauto; fail);
        try (destruct (isAbort e); [right; eauto | now left]).
      destruct (JSON_parse text); [|now left].
      cbn. now left.
Qed.

End Outcomes.

(** ** Concrete runs *)

Import Runtime Scenario.

Lemma C1_non_2xx_status_witness :
  fst (apiRequest score_basic
         (answers 402 (Some "application/json") payment_instructions) world)
  = Failure PaymentRequired
      (new_ApiError (payment_required_message payment_instructions) 402)
  /\ contains "pay 0.10 USDC" (payment_required_message payment_instructions)
  /\ fst (apiRequest score_basic (answers 404 (Some "text/plain") "not found") world)
     = Failure HttpError
         (new_ApiError "API request failed with status 404: not found" 404)
  /\ contains "404" "API request failed with status 404: not found"
  /\ fst (apiRequest report_fraud (answers 500 None "boom") world)
     = Failure HttpError
         (new_ApiError "API request failed with status 500: boom" 500).
Proof.
  destruct (C1_non_2xx_status score_basic
              (answers 402 (Some "application/json") payment_instructions)
              world score_basic_url None
              {| status := 402; content_type := Some "application/json";
                 meanwhile_body := []; body_result := Resolves payment_instructions |}
              payment_instructions
              eq_refl eq_refl eq_refl eq_refl eq_refl) as (Hpaid & _).
  destruct (C1_non_2xx_status score_basic
              (answers 404 (Some "text/plain") "not found")
              world score_basic_url None
              {| status := 404; content_type := Some "text/plain";
                 meanwhile_body := []; body_result := Resolves "not found" |}
              "not found"
              eq_refl eq_refl eq_refl eq_refl eq_refl)
    as (Hmissing & _ & _ & _ & _ & Hdigits).
  destruct (C1_non_2xx_status report_fraud
              (answers 500 None "boom")
              world {| href := "https://api.example/v1/report"; search := [] |}
              (Some (stringify (JObject [("target", JString "0xBBBB")])))
              {| status := 500; content_type := None;
                 meanwhile_body := []; body_result := Resolves "boom" |}
              "boom"
              eq_refl eq_refl eq_refl eq_refl eq_refl) as (Hboom & _).
  split; [exact Hpaid|].
  split; [apply includes_contains; reflexivity|].
  split; [exact Hmissing|].
  split; [apply Hdigits; cbn [status]; lia|].
  exact Hboom.
Defined.

Lemma C2_transport_exception_witness :
  fst (apiRequest score_basic sleeps world)
  = Failure Timeout
      (new_ApiError "Request timed out after 50ms. Try again or increase timeout." 0)
  /\ fst (apiRequest score_basic
            (Cases.rejects (DOMException "AbortError" "The operation was aborted"))
            world)
     = Failure Timeout
         (new_ApiError "Request timed out after 50ms. Try again or increase timeout." 0)
  /\ fst (apiRequest score_basic
            (Cases.rejects (Error "TypeError" "fetch failed")) world)
     = Failure NetworkError (new_ApiError "Network error: fetch failed" 0)
  /\ fst (apiRequest score_basic
            (Cases.rejects (DOMException "NotSupportedError" "not supported"))
            world)
     = Failure NetworkError (new_ApiError "Network error: not supported" 0)
  /\ fst (apiRequest score_basic (Cases.rejects (NotAnError "boom")) world)
     = Failure NetworkError (new_ApiError "Network error: boom" 0).
Proof.
  split; [|split; [|split; [|split]]].
  - exact (proj1 (C2_transport_exception score_basic sleeps world score_basic_url
                    None abort_error eq_refl eq_refl
                    (or_intror (conj eq_refl eq_refl)))).
  - exact (proj1 (C2_transport_exception score_basic
                    (Cases.rejects (DOMException "AbortError" "The operation was aborted"))
                    world score_basic_url None
                    (DOMException "AbortError" "The operation was aborted")
                    eq_refl eq_refl (or_introl eq_refl))).
  - exact (proj1 (C2_transport_exception score_basic
                    (Cases.rejects (Error "TypeError" "fetch failed"))
                    world score_basic_url None
                    (Error "TypeError" "fetch failed")
                    eq_refl eq_refl (or_introl eq_refl))).
  - exact (proj1 (C2_transport_exception score_basic
                    (Cases.rejects (DOMException "NotSupportedError" "not supported"))
                    world score_basic_url None
                    (DOMException "NotSupportedError" "not supported")
                    eq_refl eq_refl (or_introl eq_refl))).
  - exact (proj1 (C2_transport_exception score_basic
                    (Cases.rejects (NotAnError "boom"))
                    world score_basic_url None (NotAnError "boom")
                    eq_refl eq_refl (or_introl eq_refl))).
Defined.

Lemma C3_success_payload_witness :
  fst (apiRequest score_basic
         (answers 200 (Some "application/json; charset=utf-8") "true") world)
  = Success (JBool true)
  /\ fst (apiRequest score_basic
            (answers 200 (Some "image/svg+xml") "<svg/>") world)
     = Success (JString "<svg/>").
Proof.
  split.
  - exact (proj1 (C3_success_payload score_basic
                    (answers 200 (Some "application/json; charset=utf-8") "true")
                    world score_basic_url None
                    {| status := 200;
                       content_type := Some "application/json; charset=utf-8";
                       meanwhile_body := []; body_result := Resolves "true" |}
                    "true" eq_refl eq_refl eq_refl eq_refl eq_refl)
                 (JBool true) eq_refl eq_refl).
  - exact (proj1 (proj2 (C3_success_payload score_basic
                    (answers 200 (Some "image/svg+xml") "<svg/>")
                    world score_basic_url None
                    {| status := 200; content_type := Some "image/svg+xml";
                       meanwhile_body := []; body_result := Resolves "<svg/>" |}
                    "<svg/>" eq_refl eq_refl eq_refl eq_refl eq_refl)
                 eq_refl)).
Defined.


Lemma C6_request_sent_witness :
  log (snd (apiRequest report_fraud
              (answers 200 (Some "application/json") "true") world))
  = [EvSetTimeout 0 50;
     EvFetch "https://api.example/v1/report"
       {| init_method := POST;
          init_headers := [("Content-Type", "application/json");
                           ("Accept", "application/json")];
          init_body := Some (stringify (JObject [("target", JString "0xBBBB")]));
          init_signal := 0 |};
     EvJson;
     EvClearTimeout 0].
Proof.
  exact (proj1 (C6_request_sent report_fraud
                  (answers 200 (Some "application/json") "true") world
                  {| href := "https://api.example/v1/report"; search := [] |}
                  (Some (stringify (JObject [("target", JString "0xBBBB")])))
                  eq_refl eq_refl)).
Defined.

(** The run of a POST whose body is false: the request goes out
    without a body. *)
Example post_false_run :
  log (snd (apiRequest post_false
              (answers 200 (Some "application/json") "true") (init None)))
  = [EvSetTimeout 0 10000;
     EvFetch "https://djd-agent-score.fly.dev/v1/report"
       {| init_method := POST;
          init_headers := [("Content-Type", "application/json");
                           ("Accept", "application/json")];
          init_body := None;
          init_signal := 0 |};
     EvJson;
     EvClearTimeout 0].
Proof. reflexivity. Qed.

(** C6 as the specification states it does not hold: a body that is
    present and serializable is not always what the request carries.
    The value false serializes to the text false, and the call made for
    it carries no body. *)
Lemma C6_falsy_body_not_sent :
  ~ (forall (opts : RequestOptions node) (s : Script) (w : World)
            (url0 : Url) (b : JsValue) (json : string),
       URL_new (path opts) (baseUrl (current w)) = Normal url0 ->
       body opts = Some b ->
       JSON_stringify b = Normal (Some json) ->
       exists url init,
         In (EvFetch url init) (log (snd (apiRequest opts s w)))
         /\ init_body init = Some json).
Proof.
  intros Hclaim.
  destruct (Hclaim post_false (answers 200 (Some "application/json") "true")
              (init None)
              {| href := "https://djd-agent-score.fly.dev/v1/report"; search := [] |}
              (JBool false) "false" eq_refl eq_refl eq_refl)
    as (url & init & Hin & Hbody).
  rewrite post_false_run in Hin. cbn [In] in Hin.
  destruct Hin as [Hev | [Hev | [Hev | [Hev | []]]]]; try discriminate Hev.
  injection Hev as _ <-. discriminate Hbody.
Qed.

Lemma C4_invalid_url_escapes_witness :
  apiRequest health_check sleeps misconfigured
  = (Uncaught (Error "TypeError" "Invalid URL"), misconfigured).
Proof.
  exact (C4_invalid_url_escapes health_check sleeps misconfigured
           (Error "TypeError" "Invalid URL") eq_refl).
Defined.

(** What the tool layer prints for it. *)
Example invalid_url_rendered :
  formatError (Foreign (Error "TypeError" "Invalid URL"))
  = "Unexpected error: Invalid URL".
Proof. reflexivity. Qed.

(** C7 as the specification states it does not hold.  The same call
    against the same network, with and without a
    [setConfig({ timeoutMs: 5000 })] made while the request is in
    flight: the timer was set for 50 ms in both runs and the request is
    the same, yet the timeout error of the second run reports 5000 ms,
    so the two outcomes differ. *)
Lemma C7_timeout_message_follows_setConfig :
  fst (apiRequest score_basic sleeps world)
  = Failure Timeout
      (new_ApiError "Request timed out after 50ms. Try again or increase timeout." 0)
  /\ fst (apiRequest score_basic sleeps_reconfigured world)
     = Failure Timeout
         (new_ApiError "Request timed out after 5000ms. Try again or increase timeout." 0)
  /\ log (snd (apiRequest score_basic sleeps_reconfigured world))
     = [EvSetTimeout 0 50;
        EvFetch "https://api.example/v1/score/basic?wallet=0xAAAA"
          {| init_method := GET;
             init_headers := [("Content-Type", "application/json");
                              ("Accept", "application/json")];
             init_body := None;
             init_signal := 0 |};
        EvClearTimeout 0]
  /\ fst (apiRequest score_basic sleeps world)
     <> fst (apiRequest score_basic sleeps_reconfigured world).
Proof.
  split; [reflexivity|]. split; [reflexivity|]. split; [reflexivity|].
  intros Heq. discriminate Heq.
Qed.

(** * Further properties *)

(** ** The configuration store *)

Lemma last_provided_from {A : Type} (field : PartialConfig -> option A)
    (calls : list PartialConfig) (acc : option A) :
  foldl (fun acc o => match field o with Some v => Some v | None => acc end)
        acc calls
  = match last_provided field calls with Some v => Some v | None => acc end.
Proof.
  unfold last_provided. revert acc.
  induction calls as [|o calls IH]; intros acc; [reflexivity|].
  cbn [foldl]. rewrite IH, (IH (match field o with Some v => Some v | None => None end)).
  destruct (foldl _ None calls); [reflexivity|]. now destruct (field o).
Qed.

Lemma last_provided_cons {A : Type} (field : PartialConfig -> option A)
    (o : PartialConfig) (calls : list PartialConfig) :
  last_provided field (o :: calls)
  = match last_provided field calls with Some v => Some v | None => field o end.
Proof.
  unfold last_provided at 1. cbn [foldl]. rewrite last_provided_from.
  destruct (last_provided field calls); [reflexivity|]. now destruct (field o).
Qed.

Lemma current_interleave (calls : list PartialConfig) (w : World) :
  current (interleave calls w) = foldl spread (current w) calls.
Proof.
  revert w. induction calls as [|o calls IH]; intros w; [reflexivity|].
  cbn [interleave foldl]. fold (interleave calls (setConfig o w)).
  now rewrite IH, current_setConfig.
Qed.

(** X1. After any sequence of [setConfig] calls each field holds the
    value of the last call that provided it, and its value from before
    the sequence if no call did; the two fields do not interfere. *)
Theorem setConfig_last_wins (calls : list PartialConfig) (w : World) :
  baseUrl (current (interleave calls w))
    = default (baseUrl (current w)) (last_provided p_baseUrl calls)
  /\ timeoutMs (current (interleave calls w))
    = default (timeoutMs (current w)) (last_provided p_timeoutMs calls).
Proof.
  rewrite current_interleave. generalize (current w) as c.
  induction calls as [|o calls IH]; intros c; [now split|].
  cbn [foldl]. destruct (IH (spread c o)) as [-> ->].
  rewrite !last_provided_cons. unfold spread; cbn [baseUrl timeoutMs].
  split.
  - destruct (last_provided p_baseUrl calls); [reflexivity|].
    now destruct (p_baseUrl o).
  - destruct (last_provided p_timeoutMs calls); [reflexivity|].
    now destruct (p_timeoutMs o).
Qed.

Lemma current_alloc (c : ServerConfig) (w : World) :
  config_bound w -> current (snd (alloc c w)) = current w.
Proof. intros Hb. unfold current at 1. now apply deref_alloc_old. Qed.

(** X2. The objects [getConfig] returns are independent of each other
    and of later reconfiguration: two calls return different objects
    with the same fields; assigning through the first leaves the second
    as it was, and a [setConfig] made afterwards changes neither. *)
Theorem getConfig_copies_independent (w : World) (ms : list Mutation)
    (o : PartialConfig) :
  config_bound w ->
  let r1 := fst (getConfig w) in
  let w1 := snd (getConfig w) in
  let r2 := fst (getConfig w1) in
  let w2 := snd (getConfig w1) in
  r1 <> r2
  /\ deref w2 r1 = current w
  /\ deref w2 r2 = current w
  /\ deref (mutate_all r1 ms w2) r2 = current w
  /\ deref (setConfig o w2) r1 = current w
  /\ deref (setConfig o w2) r2 = current w.
Proof.
  intros Hb r1 w1 r2 w2.
  assert (H1 : r1 = length (heap w)) by reflexivity.
  assert (H2 : r2 = S (length (heap w))).
  { unfold r2, w1, getConfig, alloc; simpl. rewrite length_app; simpl; lia. }
  assert (Hlen2 : length (heap w2) = S (S (length (heap w)))).
  { unfold w2, w1, getConfig, alloc; simpl. rewrite !length_app; simpl; lia. }
  assert (Hd1 : deref w1 r1 = current w) by apply deref_alloc.
  assert (Hc1 : current w1 = current w) by now apply current_alloc.
  assert (Hd2 : deref w2 r2 = current w).
  { unfold w2, r2, getConfig. now rewrite deref_alloc. }
  assert (Hd12 : deref w2 r1 = current w).
  { unfold w2, getConfig. rewrite deref_alloc_old; [exact Hd1|].
    unfold w1, getConfig, alloc; simpl. rewrite length_app; simpl; lia. }
  assert (Hset : forall r, (r < length (heap w2))%nat ->
            deref (setConfig o w2) r = deref w2 r).
  { intros r Hr. unfold setConfig, deref; simpl. now rewrite lookup_app_l. }
  split; [lia|]. split; [exact Hd12|]. split; [exact Hd2|].
  split; [rewrite deref_mutate_all_other by lia; exact Hd2|].
  split; rewrite Hset by lia; assumption.
Qed.

Lemma getConfig_copies_independent_witness :
  config_bound (init None)
  /\ deref (mutate_all 2 [SetBaseUrl "https://evil.example"]
              (snd (getConfig (snd (getConfig (init None)))))) 3
     = current (init None).
Proof.
  split; [apply config_bound_init|].
  exact (proj1 (proj2 (proj2 (proj2
           (getConfig_copies_independent (init None)
              [SetBaseUrl "https://evil.example"]
              {| p_baseUrl := None; p_timeoutMs := None |}
              (config_bound_init None)))))).
Defined.

(** ** What a call does to the store *)

Lemma interleave_app (a b : list PartialConfig) (w : World) :
  interleave (a ++ b) w = interleave b (interleave a w).
Proof. unfold interleave. apply foldl_app. Qed.

Section StoreFacts.
Context {P : Platform}.

Lemma on_response_store (t : nat) (r : Response) (w : World) :
  same_store (snd (on_response t r w)) (interleave (meanwhile_body r) w).
Proof.
  unfold on_response.
  destruct (status r =? 402); [|destruct (negb (ok (status r)));
    [|destruct (includes "application/json" (default EmptyString (content_type r)))]].
  all: match goal with
       | |- context [await ?t ?c ?p (record_event ?ev ?w0)] =>
           pose proof (await_same_store t c p (record_event ev w0)) as Hl;
           destruct (await t c p (record_event ev w0)) as [[e|a] w']
       end;
       (eapply same_store_trans; [exact Hl|];
        apply same_store_interleave, same_store_record_event).
Qed.

Lemma try_block_store (m : Method) (url : URL) (b : option Value) (t : nat)
    (s : Script) (w : World) :
  same_store (snd (try_block m url b t s w))
    (interleave
       match request_body b with
       | Throw _ => []
       | Normal _ =>
           meanwhile_fetch s ++
           match fetch_result s with
           | Resolves r => meanwhile_body r
           | _ => []
           end
       end w).
Proof.
  unfold try_block.
  destruct (request_body b) as [payload|e]; [|apply same_store_refl].
  cbv zeta. rewrite interleave_app.
  match goal with
  | |- context [await ?t ?c ?p (record_event ?ev ?w0)] =>
      pose proof (await_same_store t c p (record_event ev w0)) as Hl;
      pose proof (await_eq t c p (record_event ev w0)) as Heq;
      destruct (await t c p (record_event ev w0)) as [[e|a] w']
  end.
  - assert (Hs : same_store w' (interleave (meanwhile_fetch s) w)).
    { eapply same_store_trans; [exact Hl|].
      apply same_store_interleave, same_store_record_event. }
    destruct (fetch_result s); try exact Hs. discriminate Heq.
  - assert (Hs : same_store w' (interleave (meanwhile_fetch s) w)).
    { eapply same_store_trans; [exact Hl|].
      apply same_store_interleave, same_store_record_event. }
    destruct (fetch_result s) as [| |r]; try discriminate Heq.
    injection Heq as <- _.
    eapply same_store_trans; [apply on_response_store|].
    now apply same_store_interleave.
Qed.

Lemma apiRequest_executed (opts : RequestOptions P) (s : Script) (w : World) :
  same_store (snd (apiRequest opts s w))
             (interleave (executed_calls opts s w) w).
Proof.
  unfold apiRequest, executed_calls.
  destruct (URL_new (path opts) (baseUrl (current w))) as [url0|e];
    [|apply same_store_refl].
  unfold setTimeout. cbv zeta.
  match goal with
  | |- context [try_block ?m ?u ?b ?t ?s ?w0] =>
      pose proof (try_block_store m u b t s w0) as Hl;
      destruct (try_block m u b t s w0) as [r w2]
  end.
  cbn [snd] in *. eapply same_store_trans; [|eapply same_store_trans; [exact Hl|]].
  - now split.
  - apply same_store_interleave. now split.
Qed.

Lemma executed_calls_silent (opts : RequestOptions P) (s : Script) (w : World) :
  silent s = true -> executed_calls opts s w = [].
Proof.
  intros Hsilent. unfold executed_calls, silent in *.
  destruct (URL_new _ _); [|reflexivity].
  destruct (request_body _); [|reflexivity].
  destruct (meanwhile_fetch s); [|discriminate].
  destruct (fetch_result s) as [| |r]; try reflexivity.
  now destruct (meanwhile_body r).
Qed.

(** X3. A call writes nothing to the configuration store: the objects
    and the binding of [config] after the call are exactly what the
    [setConfig] calls of the other tasks made of them, and when no task
    calls [setConfig] meanwhile they are as before the call. *)
Theorem apiRequest_store (opts : RequestOptions P) (s : Script) (w : World) :
  heap (snd (apiRequest opts s w))
    = heap (interleave (executed_calls opts s w) w)
  /\ config (snd (apiRequest opts s w))
    = config (interleave (executed_calls opts s w) w)
  /\ (silent s = true ->
      heap (snd (apiRequest opts s w)) = heap w
      /\ config (snd (apiRequest opts s w)) = config w).
Proof.
  destruct (apiRequest_executed opts s w) as [Hh Hc].
  split; [exact Hh|]. split; [exact Hc|].
  intros Hsilent. rewrite Hh, Hc, (executed_calls_silent _ _ _ Hsilent).
  now split.
Qed.

End StoreFacts.

(** ** Sessions *)

Lemma session_ok_boot (env : option string) : session_ok env (boot env).
Proof. unfold session_ok, boot; simpl. repeat split; [lia | lia | constructor]. Qed.

Lemma session_ok_setConfig (env : option string) (o : PartialConfig)
    (st : Session) :
  session_ok env st ->
  session_ok env {| state := setConfig o (state st); held := held st |}.
Proof.
  intros (H0 & Hc & Hh). unfold session_ok, setConfig; simpl.
  rewrite length_app; simpl. split; [|split].
  - rewrite lookup_app_l by lia. exact H0.
  - lia.
  - eapply Forall_impl; [exact Hh|]. simpl. intros r [Hr Hne]. lia.
Qed.

Lemma session_ok_interleave (env : option string) (calls : list PartialConfig)
    (st : Session) :
  session_ok env st ->
  session_ok env {| state := interleave calls (state st); held := held st |}.
Proof.
  revert st. induction calls as [|o calls IH]; intros [w h] Hok; [exact Hok|].
  cbn [interleave foldl state held] in *.
  apply (IH {| state := setConfig o w; held := h |}).
  now apply (session_ok_setConfig env o {| state := w; held := h |}).
Qed.

Lemma session_ok_same_store (env : option string) (w w' : World)
    (h : list nat) :
  same_store w' w ->
  session_ok env {| state := w; held := h |} ->
  session_ok env {| state := w'; held := h |}.
Proof. intros [Hh Hc]. unfold session_ok; simpl. now rewrite Hh, Hc. Qed.

Section SessionFacts.
Context {P : Platform}.

Lemma session_ok_act (env : option string) (st : Session) (a : Action P) :
  session_ok env st -> session_ok env (act st a).
Proof.
  intros Hok. destruct a as [o| |i m|opts s]; cbn [act].
  - now apply session_ok_setConfig.
  - destruct Hok as (H0 & Hc & Hh). unfold session_ok, getConfig, alloc; simpl.
    rewrite length_app; simpl. split; [|split].
    + rewrite lookup_app_l by lia. exact H0.
    + lia.
    + apply Forall_app. split.
      * eapply Forall_impl; [exact Hh|]. simpl. intros r [Hr Hne]. lia.
      * constructor; [lia|constructor].
  - destruct (held st !! i) as [r|] eqn:Hi; [|exact Hok].
    destruct Hok as (H0 & Hc & Hh).
    pose proof (Forall_lookup_1 _ _ _ _ Hh Hi) as [Hr Hne]. simpl in Hr, Hne.
    unfold session_ok, mutate; simpl. rewrite length_alter. split; [|split].
    + rewrite list_lookup_alter_ne by lia. exact H0.
    + exact Hc.
    + exact Hh.
  - destruct st as [w h]. cbn [state held] in *.
    eapply session_ok_same_store; [apply apiRequest_executed|].
    now apply (session_ok_interleave env _ {| state := w; held := h |}).
Qed.

Lemma session_ok_run (env : option string) (acts : list (Action P))
    (st : Session) :
  session_ok env st -> session_ok env (run acts st).
Proof.
  revert st. induction acts as [|a acts IH]; intros st Hok; [exact Hok|].
  cbn [run foldl]. apply IH. now apply session_ok_act.
Qed.

Lemma passive_act_current (env : option string) (st : Session) (a : Action P) :
  session_ok env st -> passive a = true ->
  current (state (act st a)) = current (state st).
Proof.
  intros (H0 & Hc & Hh) Hp. destruct a as [o| |i m|opts s]; cbn [act passive] in *.
  - discriminate Hp.
  - apply current_alloc. unfold config_bound. lia.
  - destruct (held st !! i) as [r|] eqn:Hi; [|reflexivity].
    pose proof (Forall_lookup_1 _ _ _ _ Hh Hi) as [Hr Hne]. simpl in Hr, Hne.
    unfold current, deref, mutate; simpl.
    now rewrite list_lookup_alter_ne.
  - cbn [state]. rewrite (same_store_current _ _ (apiRequest_executed opts s _)).
    now rewrite (executed_calls_silent _ _ _ Hp).
Qed.

(** X4. Whatever the code around the module has done so far (calls of
    [setConfig] and [getConfig], assignments to the objects [getConfig]
    returned, requests), the object [DEFAULT_CONFIG] is as the module
    built it; and from there on, no [getConfig], no assignment to a
    returned object and no request during which no task calls
    [setConfig] changes the configuration: only [setConfig] does. *)
Theorem only_setConfig_changes_config (env : option string)
    (before acts : list (Action P)) :
  forallb passive acts = true ->
  deref (state (run acts (run before (boot env)))) 0 = DEFAULT_CONFIG env
  /\ current (state (run acts (run before (boot env))))
     = current (state (run before (boot env))).
Proof.
  intros Hp.
  assert (Hok : session_ok env (run before (boot env)))
    by apply session_ok_run, session_ok_boot.
  split.
  - destruct (session_ok_run env acts _ Hok) as (H0 & _).
    unfold deref. now rewrite H0.
  - revert Hp Hok. generalize (run before (boot env)) as st.
    induction acts as [|a acts IH]; intros st Hp Hok; [reflexivity|].
    cbn [forallb] in Hp. apply andb_true_iff in Hp as [Hpa Hp].
    cbn [run foldl]. fold (run acts (act st a)).
    rewrite (IH _ Hp (session_ok_act env st a Hok)).
    now apply (passive_act_current env).
Qed.

End SessionFacts.

(** ** Timers and platform calls *)

Lemma filter_other_idemp (t : nat) (l : list nat) :
  filter (fun x => x <> t) (filter (fun x => x <> t) l)
  = filter (fun x => x <> t) l.
Proof. now apply list_filter_filter_r. Qed.

Lemma filter_fresh (t : nat) (l : list nat) :
  Forall (fun x => (x < t)%nat) l -> filter (fun x => x <> t) l = l.
Proof.
  induction 1 as [|x l Hx Hl IH]; [reflexivity|].
  rewrite filter_cons_True by lia. now rewrite IH.
Qed.

Section TimerFacts.
Context {P : Platform}.

Lemma await_timers_but {A : Type} (t : nat) (calls : list PartialConfig)
    (s : Settled A) (w : World) :
  filter (fun x => x <> t) (timers (snd (await t calls s w)))
  = filter (fun x => x <> t) (timers w)
  /\ next_timer (snd (await t calls s w)) = next_timer w.
Proof.
  rewrite await_eq. destruct (interleave_frame calls w) as (Ht & Hn & _).
  destruct s; cbn [snd drop_timer timers next_timer]; rewrite ?Ht, ?Hn;
    split; try reflexivity.
  apply filter_other_idemp.
Qed.

Lemma on_response_timers_but (t : nat) (r : Response) (w : World) :
  filter (fun x => x <> t) (timers (snd (on_response t r w)))
  = filter (fun x => x <> t) (timers w)
  /\ next_timer (snd (on_response t r w)) = next_timer w.
Proof.
  unfold on_response.
  destruct (status r =? 402); [|destruct (negb (ok (status r)));
    [|destruct (includes "application/json" (default EmptyString (content_type r)))]].
  all: match goal with
       | |- context [await ?t ?c ?p (record_event ?ev ?w0)] =>
           pose proof (await_timers_but t c p (record_event ev w0)) as Hl;
           destruct (await t c p (record_event ev w0)) as [[e|a] w']
       end; exact Hl.
Qed.

Lemma try_block_timers_but (m : Method) (url : URL) (b : option Value)
    (t : nat) (s : Script) (w : World) :
  filter (fun x => x <> t) (timers (snd (try_block m url b t s w)))
  = filter (fun x => x <> t) (timers w)
  /\ next_timer (snd (try_block m url b t s w)) = next_timer w.
Proof.
  unfold try_block.
  destruct (request_body b) as [payload|e]; [|now split].
  cbv zeta.
  match goal with
  | |- context [await ?t ?c ?p (record_event ?ev ?w0)] =>
      pose proof (await_timers_but t c p (record_event ev w0)) as Hl;
      destruct (await t c p (record_event ev w0)) as [[e|a] w']
  end; [exact Hl|].
  cbn [snd timers next_timer record_event] in Hl. destruct Hl as [Ht Hn].
  destruct (on_response_timers_but t a w') as [Ht' Hn'].
  split; congruence.
Qed.

(** X5. Where every pending timer has a handle drawn earlier, a call
    leaves the pending timers exactly as it found them, whatever
    happens, and draws at most one handle; the same then holds of the
    next call. *)
Theorem apiRequest_timers_unchanged (opts : RequestOptions P) (s : Script)
    (w : World) :
  timers_fresh w ->
  timers (snd (apiRequest opts s w)) = timers w
  /\ (next_timer w <= next_timer (snd (apiRequest opts s w)) <= S (next_timer w))%nat
  /\ timers_fresh (snd (apiRequest opts s w)).
Proof.
  intros Hfresh.
  assert (Hboth : timers (snd (apiRequest opts s w)) = timers w
            /\ (next_timer w <= next_timer (snd (apiRequest opts s w))
                <= S (next_timer w))%nat).
  { unfold apiRequest.
    destruct (URL_new (path opts) (baseUrl (current w))) as [url0|e];
      [|cbn [snd]; split; [reflexivity|lia]].
    unfold setTimeout. cbv zeta.
    match goal with
    | |- context [try_block ?m ?u ?b ?t ?s ?w0] =>
        pose proof (try_block_timers_but m u b t s w0) as [Ht Hn];
        destruct (try_block m u b t s w0) as [r w2]
    end.
    cbn [snd timers next_timer clearTimeout record_event drop_timer] in *.
    rewrite Ht, Hn, filter_cons_False by lia.
    split; [now apply filter_fresh | lia]. }
  destruct Hboth as [Ht Hn]. split; [exact Ht|]. split; [exact Hn|].
  unfold timers_fresh in *. rewrite Ht.
  eapply Forall_impl; [exact Hfresh|]. simpl. intros x Hx. lia.
Qed.

Lemma is_read_body_read (r : Response) :
  is_read (body_read r) = true /\ is_fetch (body_read r) = false.
Proof.
  unfold body_read.
  destruct (status r =? 402); [|destruct (negb (ok (status r)));
    [|destruct (includes "application/json" (default EmptyString (content_type r)))]];
    now split.
Qed.

(** X6. A call makes at most one [fetch], so it never retries, and at
    most one read of a body, and reads a body only when it has made a
    [fetch]; the log of platform calls only grows. *)
Theorem apiRequest_one_fetch (opts : RequestOptions P) (s : Script) (w : World) :
  exists calls,
    log (snd (apiRequest opts s w)) = log w ++ calls
    /\ (length (List.filter is_read calls)
        <= length (List.filter is_fetch calls) <= 1)%nat.
Proof.
  destruct (URL_new (path opts) (baseUrl (current w))) as [url0|e] eqn:Hurl.
  - eexists. split; [apply (apiRequest_log _ _ _ _ Hurl)|].
    unfold dispatched, body_reads.
    destruct (request_body (body opts)); [|cbn; lia].
    destruct (fetch_result s) as [| |r]; try (cbn; lia).
    destruct (is_read_body_read r) as [Hr Hf].
    cbn [app List.filter is_fetch is_read]. rewrite Hr, Hf. cbn. lia.
  - exists []. unfold apiRequest. rewrite Hurl. cbn [snd].
    split; [now rewrite app_nil_r | cbn; lia].
Qed.

End TimerFacts.

(** ** Outcomes of a call *)

Section OutcomeFacts.
Context {P : Platform}.
Implicit Types (opts : RequestOptions P) (s : Script) (w : World).

Ltac open_request Hurl Hbody :=
  unfold apiRequest; rewrite Hurl; unfold setTimeout;
  cbv zeta; unfold try_block; rewrite Hbody; cbv zeta.

(** X7. The status code of the error tells a caller what happened: it
    is 402 exactly for the payment-required error, 0 for a timeout and
    for a network error, and for the HTTP error the status of the
    response, which is outside 200-299 and is not 402. *)
Theorem statusCode_tells_kind opts s w (kind : ErrorKind) (error : ApiError) :
  fst (apiRequest opts s w) = Failure kind error ->
  (kind = PaymentRequired <-> statusCode error = 402)
  /\ (kind = Timeout \/ kind = NetworkError -> statusCode error = 0)
  /\ (kind = HttpError ->
      ok (statusCode error) = false /\ statusCode error <> 402).
Proof.
  intros Hf. apply apiRequest_failure_shape in Hf.
  destruct kind.
  - destruct Hf as [text ->]. cbn. repeat split; try easy.
    intros [H|H]; discriminate H.
  - destruct Hf as (st & text & -> & Hok & Hne). cbn.
    split; [split; [discriminate | contradiction]|].
    split; [intros [H|H]; discriminate H | now split].
  - destruct Hf as [ms ->]. cbn. repeat split; try easy; discriminate.
  - destruct Hf as [detail ->]. cbn. repeat split; try easy; discriminate.
Qed.

(** X8. A call resolves only for a response with a status in 200-299
    whose body was read to the end: the payload is then what
    [JSON.parse] made of the text when the content-type header contains
    application/json, and the text itself otherwise.  No other response
    and no failure of the transport ever yields a payload. *)
Theorem success_needs_2xx opts s w (v : Value) :
  fst (apiRequest opts s w) = Success v ->
  exists r text,
    fetch_result s = Resolves r
    /\ ok (status r) = true
    /\ body_result r = Resolves text
    /\ (if includes "application/json" (default EmptyString (content_type r))
        then JSON_parse text = inr v
        else v = of_string text).
Proof.
  assert (Hcatch : forall c w', catch_block (P := P) c w' <> Success v).
  { intros [kind error|e] w'; unfold catch_block; [discriminate|].
    destruct (isAbort e); discriminate. }
  unfold apiRequest.
  destruct (URL_new (path opts) (baseUrl (current w))) as [url0|e]; [|discriminate].
  unfold setTimeout. cbv zeta. unfold try_block.
  destruct (request_body (body opts)) as [payload|e];
    [|cbn [fst]; intros H; now apply Hcatch in H].
  cbv zeta. rewrite await_eq.
  destruct (fetch_result s) as [|e|r] eqn:Hfetch; cbn [fst snd];
    try (intros H; now apply Hcatch in H).
  unfold on_response, response_text, response_json.
  destruct (status r =? 402);
    [|destruct (negb (ok (status r))) eqn:Hok;
      [|destruct (includes "application/json"
                    (default EmptyString (content_type r))) eqn:Hjson]];
    rewrite await_eq; destruct (body_result r) as [|e|text] eqn:Hread;
    cbn [fst snd]; try (intros H; now apply Hcatch in H).
  - destruct (JSON_parse text) as [msg|v'] eqn:Hparse; cbn [fst snd];
      [intros H; now apply Hcatch in H|].
    intros H. injection H as ->. exists r, text.
    apply negb_false_iff in Hok. rewrite Hjson. now repeat split.
  - intros H. injection H as <-. exists r, text.
    apply negb_false_iff in Hok. rewrite Hjson. now repeat split.
Qed.



(** X11. A response with a status in 200-299 that has no content-type
    header, or an empty one, is delivered as text: the body is not
    parsed, even if it is a JSON document. *)
Theorem missing_content_type_is_text opts s w (url0 : URL)
    (payload : option string) (r : Response) (text : string) :
  URL_new (path opts) (baseUrl (current w)) = Normal url0 ->
  request_body (body opts) = Normal payload ->
  fetch_result s = Resolves r ->
  ok (status r) = true ->
  content_type r = None \/ content_type r = Some EmptyString ->
  body_result r = Resolves text ->
  fst (apiRequest opts s w) = Success (of_string text)
  /\ body_reads s = [EvText].
Proof.
  intros Hurl Hbody Hfetch Hok Hct Htext.
  assert (Hjson : includes "application/json"
                    (default EmptyString (content_type r)) = false)
    by (destruct Hct as [-> | ->]; reflexivity).
  split.
  - open_request Hurl Hbody. rewrite await_eq, Hfetch. unfold on_response.
    rewrite (ok_not_402 _ Hok), Hok. cbn [negb]. rewrite Hjson.
    rewrite await_eq. unfold response_text. now rewrite Htext.
  - unfold body_reads, body_read.
    now rewrite Hfetch, (ok_not_402 _ Hok), Hok, Hjson.
Qed.

End OutcomeFacts.

(** ** The tool layer *)

Lemma all_hex_alphanumeric (s : string) :
  Tools.all_hex s = true ->
  Forall (fun c => Tools.alphanumeric c = true) (String.list_ascii_of_string s).
Proof.
  induction s as [|c s IH]; intros H; [constructor|].
  cbn [Tools.all_hex] in H. apply andb_true_iff in H as [Hc Hs].
  cbn [String.list_ascii_of_string]. constructor; [|now apply IH].
  unfold Tools.hex_digit in Hc. unfold Tools.alphanumeric. cbv zeta in *.
  revert Hc. generalize (Ascii.nat_of_ascii c) as n. intros n.
  rewrite !orb_true_iff, !andb_true_iff, !Nat.leb_le. lia.
Qed.

(** X12. What the hex schemas let through has the length the pattern
    fixes (42 characters for a wallet, 66 for a transaction hash),
    starts with 0x and consists of ASCII digits and letters only: a
    validated wallet brings no slash, dot, question mark, hash, percent
    sign or blank into the paths and queries built from it. *)
Theorem hex_schema_shape (n : nat) (s : string) :
  Tools.hex_string n s = true ->
  String.length s = (n + 2)%nat
  /\ String.prefix "0x" s = true
  /\ Forall (fun c => Tools.alphanumeric c = true) (String.list_ascii_of_string s).
Proof.
  destruct s as [|c0 [|c1 rest]]; try discriminate. cbn [Tools.hex_string].
  rewrite !andb_true_iff, !Nat.eqb_eq. intros [[[H0 H1] Hlen] Hhex].
  apply (f_equal Ascii.ascii_of_nat) in H0, H1.
  rewrite Ascii.ascii_nat_embedding in H0, H1. subst c0 c1.
  split; [cbn [String.length]; lia|].
  split; [apply prefix_append; now exists rest|].
  cbn [String.list_ascii_of_string]. repeat constructor.
  now apply all_hex_alphanumeric.
Qed.

Lemma hex_schema_shape_witness :
  Tools.WalletSchema "0x52908400098527886E0F7030069857D2E4169EE7" = true
  /\ String.length "0x52908400098527886E0F7030069857D2E4169EE7" = 42%nat.
Proof.
  split; [reflexivity|].
  exact (proj1 (hex_schema_shape 40 "0x52908400098527886E0F7030069857D2E4169EE7"
                  eq_refl)).
Defined.

Section ToolFacts.
Context {P : Platform} {T : ToolPlatform P}.
Implicit Types (opts : RequestOptions P) (s : Script) (w : World).

(** X13. The payment instructions of a 402 reach the agent: when the
    server answers a tool's request with status 402 and a body, the
    tool returns an error result whose text ends with that body. *)
Theorem tool_relays_payment_details opts s w (url0 : URL)
    (payload : option string) (r : Response) (details : string) :
  URL_new (path opts) (baseUrl (current w)) = Normal url0 ->
  request_body (body opts) = Normal payload ->
  fetch_result s = Resolves r ->
  status r = 402 ->
  body_result r = Resolves details ->
  fst (Tools.call_tool opts s w)
    = {| Tools.isError := Some true;
         Tools.text := Some (payment_required_message details) |}
  /\ contains details (payment_required_message details).
Proof.
  intros Hurl Hbody Hfetch H402 Hread. split.
  - unfold Tools.call_tool, apiRequest. rewrite Hurl. unfold setTimeout.
    cbv zeta. unfold try_block. rewrite Hbody. cbv zeta.
    rewrite await_eq, Hfetch. unfold on_response. rewrite H402.
    cbn [Z.eqb Pos.eqb]. rewrite await_eq. unfold response_text.
    rewrite Hread. reflexivity.
  - unfold payment_required_message. rewrite <- !append_assoc.
    apply contains_suffix.
Qed.

(** X14. A tool makes one call of [apiRequest] and adds nothing to it.
    A rejection with an [ApiError] becomes an error result whose text
    is the error's message, unchanged, so that its first words still
    tell the kind; an exception that is no [ApiError] becomes an error
    result marked Unexpected error, which reads as none of the four
    kinds; a result without [isError] is only returned for a payload. *)
Theorem tool_error_text opts s w :
  snd (Tools.call_tool opts s w) = snd (apiRequest opts s w)
  /\ match fst (apiRequest opts s w) with
     | Failure kind error =>
         fst (Tools.call_tool opts s w)
           = {| Tools.isError := Some true; Tools.text := Some (message error) |}
         /\ kind_of_message (message error) = Some kind
     | Uncaught e =>
         fst (Tools.call_tool opts s w)
           = {| Tools.isError := Some true;
                Tools.text := Some ("Unexpected error: " +:+ describe e) |}
         /\ kind_of_message ("Unexpected error: " +:+ describe e) = None
     | Success data =>
         fst (Tools.call_tool opts s w) = Tools.reply data
     end.
Proof.
  pose proof (kind_recoverable opts s w) as Hkind.
  unfold Tools.call_tool.
  destruct (apiRequest opts s w) as [[data|kind error|e] w']; cbn [fst snd] in *.
  - now split.
  - split; [reflexivity|]. split; [reflexivity|]. now apply Hkind.
  - now repeat split.
Qed.

(** X15. The truthiness test on the body never drops the body of a
    tool: the tools that post ([report_fraud], [register_agent]) pass
    an object literal, which is truthy, so their request goes out as a
    POST with the JSON text of that object as its body. *)
Theorem posting_tools_send_body (route : string)
    (fields : list (string * Value)) s w (url0 : URL)
    (json : option string) :
  (forall fs, ToBoolean (object_literal fs) = true) ->
  URL_new route (baseUrl (current w)) = Normal url0 ->
  JSON_stringify (object_literal fields) = Normal json ->
  log (snd (Tools.call_tool (Tools.post route (object_literal fields)) s w))
  = log w ++
    [EvSetTimeout (next_timer w) (timeoutMs (current w));
     EvFetch (URL_toString url0)
       {| init_method := POST;
          init_headers := [("Content-Type", "application/json");
                           ("Accept", "application/json")];
          init_body := json;
          init_signal := next_timer w |}]
    ++ body_reads s ++ [EvClearTimeout (next_timer w)].
Proof.
  intros Htruthy Hurl Hjson.
  assert (Hsnd : forall opts, snd (Tools.call_tool opts s w)
                              = snd (apiRequest opts s w)).
  { intros opts. unfold Tools.call_tool.
    now destruct (apiRequest opts s w) as [[data|kind error|e] w']. }
  rewrite Hsnd.
  rewrite (apiRequest_log (Tools.post route (object_literal fields)) s w url0 Hurl).
  unfold Tools.post, request_body; cbn [body method params].
  rewrite Htruthy, Hjson. unfold dispatched, with_params; cbn [params method].
  now rewrite <- !app_assoc.
Qed.

(** X16. [get_badge] reports as badge URL the configured base URL
    followed by the path it requests: with the configuration read after
    the import, the request goes to [new URL(path, baseUrl)] for that
    same [baseUrl], and when the server answers 200 with a content type
    that is not JSON, the tool returns the object made of that badge
    URL and the text of the body. *)
Theorem get_badge_reports_requested_path (wallet : string)
    (imports : list PartialConfig) s w (url0 : URL) (r : Response)
    (svg : string) :
  config_bound w ->
  URL_new (Tools.badge_path wallet)
          (baseUrl (current (interleave imports w))) = Normal url0 ->
  fetch_result s = Resolves r ->
  ok (status r) = true ->
  includes "application/json" (default EmptyString (content_type r)) = false ->
  body_result r = Resolves svg ->
  fst (Tools.get_badge wallet imports s w)
    = Tools.reply
        (object_literal
           [("badgeUrl",
             of_string (baseUrl (current (interleave imports w))
                        +:+ Tools.badge_path wallet));
            ("svg", of_string svg)])
  /\ exists before after,
       log (snd (Tools.get_badge wallet imports s w))
       = before ++ [EvFetch (URL_toString url0)
                      {| init_method := GET;
                         init_headers := request_headers;
                         init_body := None;
                         init_signal := next_timer w |}] ++ after.
Proof.
  intros Hb Hurl Hfetch Hok Hjson Hread.
  pose proof (config_bound_interleave imports w Hb) as Hb0.
  destruct (interleave_frame imports w) as (Ht & Hn & Hl).
  set (w0 := interleave imports w) in *.
  assert (Hcur : current (snd (getConfig w0)) = current w0)
    by now apply current_alloc.
  unfold Tools.get_badge. fold w0.
  destruct (getConfig w0) as [ref w1] eqn:Hget.
  assert (Href : deref w1 ref = current w0).
  { pose proof (deref_alloc (current w0) w0) as Hd.
    unfold getConfig in Hget. now rewrite Hget in Hd. }
  cbn [snd] in Hcur.
  assert (Hn1 : next_timer w1 = next_timer w).
  { unfold getConfig, alloc in Hget. injection Hget as _ <-. exact Hn. }
  assert (Hurl1 : URL_new (path (Tools.plain_get (P := P) (Tools.badge_path wallet)))
                          (baseUrl (current w1)) = Normal url0)
    by (rewrite Hcur; exact Hurl).
  pose proof (apiRequest_log (Tools.plain_get (Tools.badge_path wallet)) s w1 url0 Hurl1)
    as Hlog.
  assert (Hout : fst (apiRequest (Tools.plain_get (Tools.badge_path wallet)) s w1)
                 = Success (of_string svg)).
  { unfold apiRequest. rewrite Hurl1. unfold setTimeout. cbv zeta.
    unfold try_block, Tools.plain_get, request_body; cbn [body]. cbv zeta.
    rewrite await_eq, Hfetch. unfold on_response.
    rewrite (ok_not_402 _ Hok), Hok. cbn [negb]. rewrite Hjson.
    rewrite await_eq. unfold response_text. now rewrite Hread. }
  destruct (apiRequest (Tools.plain_get (Tools.badge_path wallet)) s w1)
    as [outcome w2].
  cbn [fst snd] in *. subst outcome. cbn [fst snd]. split.
  - rewrite Href. unfold Tools.badge_path. reflexivity.
  - rewrite Hlog. unfold Tools.plain_get, request_body, dispatched, with_params;
      cbn [body params method]. rewrite Hn1.
    exists (log w1 ++ [EvSetTimeout (next_timer w) (timeoutMs (current w1))]),
           (body_reads s ++ [EvClearTimeout (next_timer w)]).
    cbn [default]. now rewrite <- !app_assoc.
Qed.

End ToolFacts.

(** ** Concrete runs of the further properties *)

Import ToolRuntime.

Lemma only_setConfig_changes_config_witness :
  current (state (run (P := node)
                    [DoGetConfig; DoAssign 0 (SetTimeoutMs 1);
                     DoAssign 1 (SetBaseUrl "https://evil.example");
                     DoRequest score_basic sleeps]
                    (run [DoSetConfig {| p_baseUrl := Some "https://api.example";
                                         p_timeoutMs := Some 50 |};
                          DoGetConfig]
                         (boot None))))
  = {| baseUrl := "https://api.example"; timeoutMs := 50 |}.
Proof.
  exact (proj2 (only_setConfig_changes_config (P := node) None
                  [DoSetConfig {| p_baseUrl := Some "https://api.example";
                                  p_timeoutMs := Some 50 |};
                   DoGetConfig]
                  [DoGetConfig; DoAssign 0 (SetTimeoutMs 1);
                   DoAssign 1 (SetBaseUrl "https://evil.example");
                   DoRequest score_basic sleeps]
                  eq_refl)).
Defined.

Lemma apiRequest_timers_unchanged_witness :
  timers_fresh world
  /\ timers (snd (apiRequest score_basic sleeps world)) = timers world.
Proof.
  assert (Hfresh : timers_fresh world) by constructor.
  split; [exact Hfresh|].
  exact (proj1 (apiRequest_timers_unchanged score_basic sleeps world Hfresh)).
Defined.

Lemma statusCode_tells_kind_witness :
  PaymentRequired = PaymentRequired
  <-> statusCode (new_ApiError (payment_required_message payment_instructions) 402)
      = 402.
Proof.
  exact (proj1 (statusCode_tells_kind score_basic
                  (answers 402 (Some "application/json") payment_instructions)
                  world PaymentRequired
                  (new_ApiError (payment_required_message payment_instructions) 402)
                  eq_refl)).
Defined.

Lemma success_needs_2xx_witness :
  exists r text,
    fetch_result (answers 200 (Some "application/json") "true") = Resolves r
    /\ ok (status r) = true
    /\ body_result r = Resolves text
    /\ (if includes "application/json" (default EmptyString (content_type r))
        then JSON_parse text = inr (JBool true)
        else JBool true = of_string text).
Proof.
  exact (success_needs_2xx score_basic
           (answers 200 (Some "application/json") "true") world (JBool true)
           eq_refl).
Defined.



Lemma missing_content_type_is_text_witness :
  fst (apiRequest score_basic (answers 200 None "true") world)
  = Success (JString "true").
Proof.
  exact (proj1 (missing_content_type_is_text score_basic
                  (answers 200 None "true") world score_basic_url None
                  {| status := 200; content_type := None;
                     meanwhile_body := []; body_result := Resolves "true" |}
                  "true" eq_refl eq_refl eq_refl eq_refl
                  (or_introl eq_refl) eq_refl)).
Defined.

Lemma tool_relays_payment_details_witness :
  fst (Tools.score_full "0x52908400098527886E0F7030069857D2E4169EE7"
         (answers 402 (Some "application/json") payment_instructions) world)
  = {| Tools.isError := Some true;
       Tools.text := Some (payment_required_message payment_instructions) |}.
Proof.
  exact (proj1 (tool_relays_payment_details
                  (Tools.wallet_query "/v1/score/full"
                     "0x52908400098527886E0F7030069857D2E4169EE7")
                  (answers 402 (Some "application/json") payment_instructions)
                  world
                  {| href := "https://api.example/v1/score/full"; search := [] |}
                  None
                  {| status := 402; content_type := Some "application/json";
                     meanwhile_body := [];
                     body_result := Resolves payment_instructions |}
                  payment_instructions
                  eq_refl eq_refl eq_refl eq_refl eq_refl)).
Defined.

Lemma posting_tools_send_body_witness :
  log (snd (Tools.report_fraud "0xBBBB" ["0xCCCC"] "paid twice, delivered nothing"
              (answers 200 (Some "application/json") "true") world))
  = [EvSetTimeout 0 50;
     EvFetch "https://api.example/v1/report"
       {| init_method := POST;
          init_headers := [("Content-Type", "application/json");
                           ("Accept", "application/json")];
          init_body :=
            Some (stringify
                    (JObject [("wallet", JString "0xBBBB");
                              ("txHashes", JArray [JString "0xCCCC"]);
                              ("evidence", JString "paid twice, delivered nothing")]));
          init_signal := 0 |};
     EvJson;
     EvClearTimeout 0].
Proof.
  exact (posting_tools_send_body (P := node) "/v1/report"
           [("wallet", JString "0xBBBB");
            ("txHashes", JArray [JString "0xCCCC"]);
            ("evidence", JString "paid twice, delivered nothing")]
           (answers 200 (Some "application/json") "true") world
           {| href := "https://api.example/v1/report"; search := [] |}
           (Some (stringify
                    (JObject [("wallet", JString "0xBBBB");
                              ("txHashes", JArray [JString "0xCCCC"]);
                              ("evidence", JString "paid twice, delivered nothing")])))
           (fun fs => eq_refl) eq_refl eq_refl).
Defined.

Lemma get_badge_reports_requested_path_witness :
  fst (Tools.get_badge "0xAB" [] (answers 200 (Some "image/svg+xml") "<svg/>") world)
  = Tools.reply
      (JObject [("badgeUrl", JString "https://api.example/v1/badge/0xAB.svg");
                ("svg", JString "<svg/>")]).
Proof.
  exact (proj1 (get_badge_reports_requested_path (P := node) "0xAB" []
                  (answers 200 (Some "image/svg+xml") "<svg/>") world
                  {| href := "https://api.example/v1/badge/0xAB.svg"; search := [] |}
                  {| status := 200; content_type := Some "image/svg+xml";
                     meanwhile_body := []; body_result := Resolves "<svg/>" |}
                  "<svg/>"
                  (config_bound_setConfig _ _) eq_refl eq_refl eq_refl eq_refl
                  eq_refl)).
Defined.

(** X17. The tools that take a wallet and read ([score_basic],
    [score_full], [score_refresh], [check_blacklist]) make a GET
    without a body, to the URL of their route under the configured
    base URL with the wallet set as the query parameter of that name. *)
Theorem wallet_tools_request {P : Platform} {T : ToolPlatform P}
    (route wallet : string) (s : Script) (w : World) (url0 : URL) :
  URL_new route (baseUrl (current w)) = Normal url0 ->
  log (snd (Tools.call_tool (Tools.wallet_query route wallet) s w))
  = log w ++
    [EvSetTimeout (next_timer w) (timeoutMs (current w));
     EvFetch (URL_toString (searchParams_set "wallet" wallet url0))
       {| init_method := GET;
          init_headers := [("Content-Type", "application/json");
                           ("Accept", "application/json")];
          init_body := None;
          init_signal := next_timer w |}]
    ++ body_reads s ++ [EvClearTimeout (next_timer w)].
Proof.
  intros Hurl. unfold Tools.call_tool.
  pose proof (apiRequest_log (Tools.wallet_query route wallet) s w url0 Hurl) as Hlog.
  destruct (apiRequest (Tools.wallet_query route wallet) s w)
    as [[data|kind error|e] w']; cbn [snd] in *; rewrite Hlog;
    unfold Tools.wallet_query, request_body, dispatched, with_params;
    cbn [body params method foldl fst snd default];
    now rewrite <- ?app_assoc.
Qed.

Lemma wallet_tools_request_witness :
  log (snd (Tools.score_basic "0x52908400098527886E0F7030069857D2E4169EE7"
              sleeps world))
  = [EvSetTimeout 0 50;
     EvFetch ("https://api.example/v1/score/basic?wallet="
              +:+ "0x52908400098527886E0F7030069857D2E4169EE7")
       {| init_method := GET;
          init_headers := [("Content-Type", "application/json");
                           ("Accept", "application/json")];
          init_body := None;
          init_signal := 0 |};
     EvClearTimeout 0].
Proof.
  exact (wallet_tools_request (P := node) "/v1/score/basic"
           "0x52908400098527886E0F7030069857D2E4169EE7" sleeps world
           score_basic_url eq_refl).
Defined.

(** X18. The one exception that leaves a call unclassified is the one
    [new URL] throws: a call is rejected with something that is no
    [ApiError] exactly when the URL does not parse, and then with what
    [new URL] threw. *)
Theorem uncaught_only_from_url {P : Platform} (opts : RequestOptions P)
    (s : Script) (w : World) (e : Thrown) :
  fst (apiRequest opts s w) = Uncaught e
  <-> URL_new (path opts) (baseUrl (current w)) = Throw e.
Proof.
  destruct (URL_new (path opts) (baseUrl (current w))) as [url0|e'] eqn:Hurl.
  - split; [|discriminate]. intros Hraw.
    destruct (apiRequest_classified opts s w url0 Hurl)
      as [[v Hv] | (kind & error & Hf)]; congruence.
  - unfold apiRequest. rewrite Hurl. cbn [fst].
    split; intros H; injection H as ->; reflexivity.
Qed.
